(** * Character-bigram feature pipeline: embedding and properties

    A shallow embedding of [deprecated/generate_bigram_repr.py] (bigram
    counting, top-n selection, bigram-to-dimension mapping, mapping file,
    encoder) and of [load_id_to_label] from [bigram_based_models.py].

    Modelling conventions.
    - A Python [str] is the list of its Unicode code points ([list N]).
    - A Python [int] is a [Z].
    - A Python [dict] is an association list in insertion order: a [dict]
      iterates, and [json.dump] writes, in the order the keys were first
      inserted.
    - A Python [set] is a [gset]; the order in which a [for] loop visits it is
      not fixed by its elements, so it is a parameter of the model.
    - Files live in a finite map from paths to their text. The text layer of
      [open(..., encoding='utf8')] is the identity on the strings written and
      read here, so a file holds a [str].
    - [csv.reader] is a parameter: the rows it yields for a file's text.
    - A numpy vector of float64 counts is a [list Z]: the values are counts of
      bigrams of one text, far below 2^53, where float64 is exact.
    - [print] calls (progress reports) are left out. *)

From Stdlib Require Import ZArith NArith QArith Ascii String.
From Stdlib Require Import Decimal DecimalFacts DecimalPos DecimalN.
From stdpp Require Import base option list sorting gmap strings.

Local Open Scope Z_scope.

(* ===================================================================== *)
(** * Python values *)
(* ===================================================================== *)

(** A [str]: code points. *)
Abbreviation pystr := (list N).

(** A [str] literal with ASCII characters only. *)
Definition py (s : string) : pystr :=
  map N_of_ascii (list_ascii_of_string s).

(** The exceptions the modelled code can raise. [NotModelled] is not one of
    them: it marks an input that leaves the part of a library modelled here. *)
Inductive exn : Type :=
  | Exception (msg : string)
  | IndexError
  | TypeError
  | UnboundLocalError (name : string)
  | FileNotFoundError (path : string)
  | JSONDecodeError (msg : string)
  | NotModelled.

(** How a call ends: it returns, an exception escapes, or it reaches
    [pdb.set_trace()] and hands control to the interactive debugger. *)
Inductive outcome (A : Type) : Type :=
  | Return (a : A)
  | Raise (e : exn)
  | Pdb.
Arguments Return {A} a.
Arguments Raise {A} e.
Arguments Pdb {A}.


#[global] Instance outcome_bind : MBind outcome := fun A B k c =>
  match c with
  | Return a => k a
  | Raise e => Raise e
  | Pdb => Pdb
  end.

(** [l[i]] on a list: negative indices count from the end, anything outside
    [-len, len) raises [IndexError]. *)
Definition list_getitem {A : Type} (l : list A) (i : Z) : outcome A :=
  let len := Z.of_nat (length l) in
  let j := if i <? 0 then len + i else i in
  if (0 <=? j) && (j <? len) then
    match l !! Z.to_nat j with
    | Some x => Return x
    | None => Raise IndexError
    end
  else Raise IndexError.

(** ['\n']. *)
Definition newline : pystr := [10%N].

(** [sep.join(parts)]. *)
Fixpoint join (sep : pystr) (parts : list pystr) : pystr :=
  match parts with
  | [] => []
  | [p] => p
  | p :: ps => p ++ sep ++ join sep ps
  end.

(** [str(z)] for an [int]: decimal digits, with a minus sign when negative. *)
Fixpoint uint_chars (d : Decimal.uint) : pystr :=
  match d with
  | Nil => []
  | D0 d => 48%N :: uint_chars d
  | D1 d => 49%N :: uint_chars d
  | D2 d => 50%N :: uint_chars d
  | D3 d => 51%N :: uint_chars d
  | D4 d => 52%N :: uint_chars d
  | D5 d => 53%N :: uint_chars d
  | D6 d => 54%N :: uint_chars d
  | D7 d => 55%N :: uint_chars d
  | D8 d => 56%N :: uint_chars d
  | D9 d => 57%N :: uint_chars d
  end.

Definition str_of_int (z : Z) : pystr :=
  if z <? 0 then 45%N :: uint_chars (N.to_uint (Z.abs_N z))
  else uint_chars (N.to_uint (Z.abs_N z)).

(** ** Dictionaries *)

Abbreviation dict K V := (list (K * V)).

Section Dict.
Context {K V : Type} `{EqDecision K}.

(** [d.get(k)]: [None] when the key is absent. *)
Fixpoint dict_get (d : dict K V) (k : K) : option V :=
  match d with
  | [] => None
  | (k', v) :: d' => if decide (k = k') then Some v else dict_get d' k
  end.

(** [k in d]. *)
Definition dict_contains (d : dict K V) (k : K) : bool :=
  match dict_get d k with Some _ => true | None => false end.

(** [d[k] = v]: a present key keeps its place, a new key goes last. *)
Fixpoint dict_set (d : dict K V) (k : K) (v : V) : dict K V :=
  match d with
  | [] => [(k, v)]
  | (k', v') :: d' =>
      if decide (k = k') then (k, v) :: d' else (k', v') :: dict_set d' k v
  end.

(** [dict(pairs)]. *)
Definition dict_of_pairs (pairs : list (K * V)) : dict K V :=
  foldl (fun d kv => dict_set d kv.1 kv.2) [] pairs.
End Dict.

(** [s.split(sep)] for a one-character separator. *)
Fixpoint split_on (sep : N) (s : pystr) : list pystr :=
  match s with
  | [] => [[]]
  | c :: s' =>
      if (c =? sep)%N then [] :: split_on sep s'
      else match split_on sep s' with
           | piece :: pieces => (c :: piece) :: pieces
           | [] => [[c]]
           end
  end.

(** The lines of a text, without their line ends. *)
Definition lines_of (s : pystr) : list pystr :=
  match reverse (split_on 10 s) with
  | [] :: pieces => reverse pieces
  | pieces => reverse pieces
  end.

(** The rows [csv.reader] yields on a text that holds no quote character and
    no carriage return: one row per line, split at the commas; an empty line
    gives an empty row. It instantiates the reader in the concrete runs. *)
Definition csv_plain (s : pystr) : list (list pystr) :=
  map (fun line => match line with [] => [] | _ => split_on 44 line end) (lines_of s).

(** [sorted(xs, reverse=True)] on integers, by insertion. *)
Fixpoint insert_desc (x : Z) (l : list Z) : list Z :=
  match l with
  | [] => [x]
  | y :: l' => if y <? x then x :: y :: l' else y :: insert_desc x l'
  end.

Definition sorted_desc (l : list Z) : list Z := foldr insert_desc [] l.

(** [[''.join(bi) for bi in zip(text, text[1:])]]. *)
Definition bigrams (text : pystr) : list pystr :=
  map (fun bi : N * N => [bi.1; bi.2]) (zip text (drop 1 text)).

(* ===================================================================== *)
(** * generate_bigram_repr.py: selection *)
(* ===================================================================== *)

(** [get_top_n(bigram_counts, n)]. *)
Definition get_top_n (bigram_counts : dict pystr Z) (n : Z)
  : outcome (dict pystr Z) :=
  let counts := sorted_desc (map snd bigram_counts) in
  threshold ← list_getitem counts (n - 1);
  Return (filter (fun bc : pystr * Z => threshold <= bc.2) bigram_counts).


(* ===================================================================== *)
(** * generate_bigram_repr.py: counting *)
(* ===================================================================== *)

(** The files: path to text. *)
Abbreviation filesystem := (gmap string pystr).

(** The seven names bound by
    [text_id, text, masked, label_binary, label_ternary, label_finegrained,
    source = line]. *)
Record corpus_row : Type := CorpusRow {
  text_id : pystr;
  text : pystr;
  masked : pystr;
  label_binary : pystr;
  label_ternary : pystr;
  label_finegrained : pystr;
  source : pystr
}.

(** The unpacking assignment; [None] is its [ValueError] (a field count other
    than seven), raised before any name is bound. *)
Definition unpack7 (line : list pystr) : option corpus_row :=
  match line with
  | [a; b; c; d; e; f; g] => Some (CorpusRow a b c d e f g)
  | _ => None
  end.

(** [['Place for parser output']]. *)
Definition placeholder : list pystr := [py "Place for parser output"].

(** [cur_dict[bigram] += 1] on a [defaultdict(int)]. *)
Definition incr (cur_dict : dict pystr Z) (bigram : pystr) : dict pystr Z :=
  dict_set cur_dict bigram (default 0 (dict_get cur_dict bigram) + 1).

(** Lines 67-69: every bigram of [text] counted into [cur_dict]. *)
Definition count_text (cur_dict : dict pystr Z) (text : pystr) : dict pystr Z :=
  foldl incr cur_dict (bigrams text).

(** The [for line in csv_reader] loop of [count_bigrams]. [locals] holds the
    seven names when an earlier row has bound them: after the [pass] of the
    placeholder branch the body goes on to lines 66-69 with whatever they hold. *)
Fixpoint count_bigrams_rows (lines : list (list pystr)) (locals : option corpus_row)
    (bigram_counts_ch bigram_counts_other : dict pystr Z)
  : outcome (dict pystr Z * dict pystr Z) :=
  match lines with
  | [] => Return (bigram_counts_ch, bigram_counts_other)
  | line :: lines' =>
      locals' ← match unpack7 line with
                | Some r => Return (Some r)
                | None => if decide (line = placeholder) then Return locals else Pdb
                end;
      match locals' with
      | None => Raise (UnboundLocalError "label_binary")
      | Some r =>
          if decide (label_binary r = py "0")
          then count_bigrams_rows lines' locals'
                 (count_text bigram_counts_ch (text r)) bigram_counts_other
          else count_bigrams_rows lines' locals'
                 bigram_counts_ch (count_text bigram_counts_other (text r))
      end
  end.

(** [count_bigrams(path_in)]. *)
Definition count_bigrams (csv_reader : pystr -> list (list pystr))
    (fs : filesystem) (path_in : string)
  : outcome (dict pystr Z * dict pystr Z) :=
  match fs !! path_in with
  | None => Raise (FileNotFoundError path_in)
  | Some content => count_bigrams_rows (csv_reader content) None [] []
  end.

(* ===================================================================== *)
(** * generate_bigram_repr.py: the bigram-to-dimension mapping *)
(* ===================================================================== *)

(** The body of the loop, [mapping[bigram] = i] then [i += 1], on the pair
    of [mapping] and [i]. *)
Definition assign_dim (st : dict pystr Z * Z) (bigram : pystr) : dict pystr Z * Z :=
  (dict_set st.1 bigram st.2, st.2 + 1).

(** [get_bigram_to_dim_mapping(top_n_ch, top_n_other)]. [set_iter] is the order
    in which the [for] loop visits the union set. *)
Definition get_bigram_to_dim_mapping (set_iter : gset pystr -> list pystr)
    (top_n_ch top_n_other : dict pystr Z) : dict pystr Z :=
  let all_bigrams : gset pystr :=
    list_to_set (map fst top_n_ch) ∪ list_to_set (map fst top_n_other) in
  (foldl assign_dim ([], 0) (set_iter all_bigrams)).1.

(** Code-point order on [str], the order of Python's [<=] and [sorted]. *)
Fixpoint str_leb (a b : pystr) : bool :=
  match a, b with
  | [], _ => true
  | _ :: _, [] => false
  | x :: a', y :: b' => if (x <? y)%N then true else if (y <? x)%N then false else str_leb a' b'
  end.

Definition str_le (a b : pystr) : Prop := str_leb a b = true.

#[global] Instance str_le_dec : RelDecision str_le.
Proof. intros a b. unfold str_le. apply _. Defined.

(** The assignment the specification describes: the union sorted, then
    numbered from 0. It is what [get_bigram_to_dim_mapping] does when the set
    happens to be visited in sorted order. *)
Definition sorted_iter (s : gset pystr) : list pystr := merge_sort str_le (elements s).

Definition sorted_mapping (top_n_ch top_n_other : dict pystr Z) : dict pystr Z :=
  get_bigram_to_dim_mapping sorted_iter top_n_ch top_n_other.

(* ===================================================================== *)
(** * The [json] module on dictionaries from [str] to [int] *)
(* ===================================================================== *)

(** [json.dump] and [json.load] as CPython defines them ([json.encoder],
    [json.decoder] and the scanner of [_json], default arguments), for the
    values the mapping file holds: one object with string keys and integer
    values. A text that leaves this fragment ends in [NotModelled]. *)
Module Json.

Local Open Scope N_scope.

(** One digit of ['{0:04x}'.format(n)]. *)
Definition hex_digit (d : N) : N := if d <? 10 then 48 + d else 87 + d.

(** ['\\u{0:04x}'.format(n)], for [n < 0x10000]. *)
Definition u_escape (n : N) : pystr :=
  [92; 117; hex_digit (n / 4096 mod 16); hex_digit (n / 256 mod 16);
   hex_digit (n / 16 mod 16); hex_digit (n mod 16)].

(** The replacement of one character in [py_encode_basestring_ascii]:
    [ESCAPE_DCT] first, printable ASCII unchanged, the rest as [\uXXXX],
    with a surrogate pair above the basic plane. *)
Definition escape_char (c : N) : pystr :=
  if c =? 92 then [92; 92]
  else if c =? 34 then [92; 34]
  else if c =? 8 then [92; 98]
  else if c =? 12 then [92; 102]
  else if c =? 10 then [92; 110]
  else if c =? 13 then [92; 114]
  else if c =? 9 then [92; 116]
  else if (32 <=? c) && (c <=? 126) then [c]
  else if c <? 0x10000 then u_escape c
  else
    let n := c - 0x10000 in
    let s1 := N.lor 0xd800 (N.land (N.shiftr n 10) 0x3ff) in
    let s2 := N.lor 0xdc00 (N.land n 0x3ff) in
    u_escape s1 ++ u_escape s2.

Definition encode_basestring_ascii (s : pystr) : pystr :=
  [34] ++ flat_map escape_char s ++ [34].

(** One [key: value] item of [_iterencode_dict]. *)
Definition encode_item (kv : pystr * Z) : pystr :=
  encode_basestring_ascii kv.1 ++ [58; 32] ++ str_of_int kv.2.

(** [json.dumps(d)]: the text [json.dump(d, f)] writes. *)
Definition dumps (d : dict pystr Z) : pystr :=
  [123] ++ join [44; 32] (map encode_item d) ++ [125].

(** [WHITESPACE.match(s, end).end()]. *)
Definition is_ws (c : N) : bool :=
  (c =? 32) || (c =? 9) || (c =? 10) || (c =? 13).

Fixpoint skip_ws (s : pystr) : pystr :=
  match s with
  | c :: s' => if is_ws c then skip_ws s' else s
  | [] => []
  end.

Definition hex_value (c : N) : option N :=
  if (48 <=? c) && (c <=? 57) then Some (c - 48)
  else if (97 <=? c) && (c <=? 102) then Some (c - 87)
  else if (65 <=? c) && (c <=? 70) then Some (c - 55)
  else None.

(** [_decode_uXXXX]: the value of four hexadecimal digits. *)
Definition decode_uXXXX (h1 h2 h3 h4 : N) : option N :=
  a ← hex_value h1; b ← hex_value h2; c ← hex_value h3; d ← hex_value h4;
  Some (a * 4096 + b * 256 + c * 16 + d).

(** The [BACKSLASH] table. *)
Definition BACKSLASH (esc : N) : option N :=
  if esc =? 34 then Some 34
  else if esc =? 92 then Some 92
  else if esc =? 47 then Some 47
  else if esc =? 98 then Some 8
  else if esc =? 102 then Some 12
  else if esc =? 110 then Some 10
  else if esc =? 114 then Some 13
  else if esc =? 116 then Some 9
  else None.

Definition is_high_surrogate (u : N) : bool := (0xd800 <=? u) && (u <=? 0xdbff).
Definition is_low_surrogate (u : N) : bool := (0xdc00 <=? u) && (u <=? 0xdfff).

Definition join_surrogates (u u2 : N) : N :=
  0x10000 + N.lor (N.shiftl (u - 0xd800) 10) (u2 - 0xdc00).

Definition append_char (c : N) (r : outcome (pystr * pystr)) : outcome (pystr * pystr) :=
  sr ← r; Return (c :: sr.1, sr.2).

(** [scanstring(s, end)] with [strict=True]: [s] starts right after the
    opening quote; the result is the decoded string and the text after the
    closing quote. *)
Fixpoint scanstring (s : pystr) : outcome (pystr * pystr) :=
  match s with
  | [] => Raise (JSONDecodeError "Unterminated string starting at")
  | c :: s1 =>
      if c =? 34 then Return ([], s1)
      else if c =? 92 then
        match s1 with
        | [] => Raise (JSONDecodeError "Unterminated string starting at")
        | esc :: s2 =>
            if esc =? 117 then
              match s2 with
              | h1 :: h2 :: h3 :: h4 :: s3 =>
                  match decode_uXXXX h1 h2 h3 h4 with
                  | None => Raise (JSONDecodeError "Invalid \uXXXX escape")
                  | Some uni =>
                      match s3 with
                      | b :: u :: g1 :: g2 :: g3 :: g4 :: s4 =>
                          if is_high_surrogate uni && (b =? 92) && (u =? 117) then
                            match decode_uXXXX g1 g2 g3 g4 with
                            | None => Raise (JSONDecodeError "Invalid \uXXXX escape")
                            | Some uni2 =>
                                if is_low_surrogate uni2
                                then append_char (join_surrogates uni uni2) (scanstring s4)
                                else append_char uni (scanstring s3)
                            end
                          else append_char uni (scanstring s3)
                      | _ => append_char uni (scanstring s3)
                      end
                  end
              | _ => Raise (JSONDecodeError "Invalid \uXXXX escape")
              end
            else
              match BACKSLASH esc with
              | Some ch => append_char ch (scanstring s2)
              | None => Raise (JSONDecodeError "Invalid \escape")
              end
        end
      else if c <? 32 then Raise (JSONDecodeError "Invalid control character at")
      else append_char c (scanstring s1)
  end.

Definition is_digit (c : N) : bool := (48 <=? c) && (c <=? 57).

Definition digit_cons (c : N) (u : Decimal.uint) : Decimal.uint :=
  if c =? 48 then D0 u else if c =? 49 then D1 u else if c =? 50 then D2 u
  else if c =? 51 then D3 u else if c =? 52 then D4 u else if c =? 53 then D5 u
  else if c =? 54 then D6 u else if c =? 55 then D7 u else if c =? 56 then D8 u
  else D9 u.

(** The longest run of decimal digits at the start of [s], and the rest. *)
Fixpoint take_digits (s : pystr) : Decimal.uint * pystr :=
  match s with
  | c :: s' =>
      if is_digit c then
        let ur := take_digits s' in (digit_cons c ur.1, ur.2)
      else (Nil, s)
  | [] => (Nil, [])
  end.

(** The integer part of [NUMBER_RE], [0|[1-9][0-9]*], read with [int]. *)
Definition scan_nat (s : pystr) : outcome (N * pystr) :=
  match s with
  | c :: s' =>
      if c =? 48 then Return (0, s')
      else if is_digit c then
        let ur := take_digits s in Return (N.of_uint ur.1, ur.2)
      else Raise (JSONDecodeError "Expecting value")
  | [] => Raise (JSONDecodeError "Expecting value")
  end.

(** A fraction or an exponent may follow: the number would be a float. *)
Definition float_follows (rest : pystr) : bool :=
  match rest with
  | c :: _ => (c =? 46) || (c =? 101) || (c =? 69)
  | [] => false
  end.

(** A number at the start of [s]: an optional minus sign and the integer
    part. Floats (and [-Infinity]) are not modelled. *)
Definition scan_int (s : pystr) : outcome (Z * pystr) :=
  let finish (v : Z) (rest : pystr) : outcome (Z * pystr) :=
    if float_follows rest then Raise NotModelled else Return (v, rest) in
  match s with
  | c :: s' =>
      if c =? 45 then
        match s' with
        | d :: _ =>
            if is_digit d then nr ← scan_nat s'; finish (- Z.of_N nr.1)%Z nr.2
            else if d =? 73 then Raise NotModelled
            else Raise (JSONDecodeError "Expecting value")
        | [] => Raise (JSONDecodeError "Expecting value")
        end
      else nr ← scan_nat s; finish (Z.of_N nr.1) nr.2
  | [] => Raise (JSONDecodeError "Expecting value")
  end.

(** [scan_once] at a value position: integers are read, the start of any
    other JSON value is not modelled. *)
Definition scan_value (s : pystr) : outcome (Z * pystr) :=
  match s with
  | c :: _ =>
      if (c =? 45) || is_digit c then scan_int s
      else if (c =? 34) || (c =? 123) || (c =? 91) || (c =? 110) || (c =? 116)
              || (c =? 102) || (c =? 78) || (c =? 73)
      then Raise NotModelled
      else Raise (JSONDecodeError "Expecting value")
  | [] => Raise (JSONDecodeError "Expecting value")
  end.

(** The [while True] loop of [JSONObject]: [s] starts right after the
    opening quote of a key. Every round consumes text: [loads] gives it the
    length of the whole text as [fuel], which is never used up. *)
Fixpoint object_pairs (fuel : nat) (s : pystr) : outcome (list (pystr * Z) * pystr) :=
  match fuel with
  | O => Raise NotModelled
  | S fuel' =>
      ks ← scanstring s;
      match skip_ws ks.2 with
      | 58 :: s1 =>
          vs ← scan_value (skip_ws s1);
          match skip_ws vs.2 with
          | 125 :: s2 => Return ([(ks.1, vs.1)], s2)
          | 44 :: s2 =>
              match skip_ws s2 with
              | 34 :: s3 =>
                  pr ← object_pairs fuel' s3;
                  Return ((ks.1, vs.1) :: pr.1, pr.2)
              | _ => Raise (JSONDecodeError
                              "Expecting property name enclosed in double quotes")
              end
          | _ => Raise (JSONDecodeError "Expecting ',' delimiter")
          end
      | _ => Raise (JSONDecodeError "Expecting ':' delimiter")
      end
  end.

(** [json.loads(s)]: leading whitespace, one object, trailing whitespace. *)
Definition loads (s : pystr) : outcome (dict pystr Z) :=
  let finish (d : dict pystr Z) (rest : pystr) : outcome (dict pystr Z) :=
    match skip_ws rest with
    | [] => Return d
    | _ => Raise (JSONDecodeError "Extra data")
    end in
  match skip_ws s with
  | 123 :: s1 =>
      match skip_ws s1 with
      | 125 :: s2 => finish [] s2
      | 34 :: s2 =>
          pr ← object_pairs (length s) s2;
          finish (dict_of_pairs pr.1) pr.2
      | _ => Raise (JSONDecodeError "Expecting property name enclosed in double quotes")
      end
  | _ => Raise NotModelled
  end.

End Json.

(* ===================================================================== *)
(** * generate_bigram_repr.py: the mapping file *)
(* ===================================================================== *)

(** [dump_bigram_to_dim_mapping(bigram_to_dim_mapping, path_out)]. *)
Definition dump_bigram_to_dim_mapping (bigram_to_dim_mapping : dict pystr Z)
    (path_out : string) (fs : filesystem) : filesystem :=
  <[path_out := Json.dumps bigram_to_dim_mapping]> fs.

(** Lines 136-140 of [gen_bigram_repr]: the existence check and [json.load]. *)
Definition load_mapping (path_mapping : string) (fs : filesystem)
  : outcome (dict pystr Z) :=
  match fs !! path_mapping with
  | None => Raise (Exception
                     "Bigram-to-dim-mapping not found. Please generate the mapping first!")
  | Some content => Json.loads content
  end.

(* ===================================================================== *)
(** * generate_bigram_repr.py: the encoder *)
(* ===================================================================== *)

(** [np.zeros(num_dims)]. *)
Definition np_zeros (num_dims : nat) : list Z := replicate num_dims 0.

(** [ohe[idx] += 1] on a numpy vector: a negative index counts from the end,
    an index outside [-len, len) raises [IndexError]. *)
Definition np_incr (ohe : list Z) (idx : Z) : outcome (list Z) :=
  let len := Z.of_nat (length ohe) in
  let j := if idx <? 0 then len + idx else idx in
  if (0 <=? j) && (j <? len) then Return (alter Z.succ (Z.to_nat j) ohe)
  else Raise IndexError.

(** Lines 158-160: the loop over the bigrams of one text. *)
Fixpoint count_into (mapping : dict pystr Z) (ohe : list Z) (bigrams : list pystr)
  : outcome (list Z) :=
  match bigrams with
  | [] => Return ohe
  | bigram :: bigrams' =>
      if dict_contains mapping bigram then
        ohe' ← np_incr ohe (default 0 (dict_get mapping bigram));
        count_into mapping ohe' bigrams'
      else count_into mapping ohe bigrams'
  end.

(** Lines 156-160: the vector [ohe] of one record. *)
Definition encode_text (mapping : dict pystr Z) (text : pystr) : outcome (list Z) :=
  let num_dims := length mapping in
  count_into mapping (np_zeros num_dims) (bigrams text).

(** Lines 165-166: the text of one output row. *)
Definition row_text (r : corpus_row) (ohe : list Z) : pystr :=
  join (py ", ")
       ([text_id r] ++ [label_binary r] ++ [label_ternary r] ++ [label_finegrained r]
        ++ map str_of_int ohe).

(** What the loop of [gen_bigram_repr] holds: the pending rows and the text
    handed to [fout.write] so far. *)
Record writer : Type := Writer {
  write_list : list pystr;
  fout : pystr
}.

(** The [for i, line in enumerate(csv_reader)] loop of [gen_bigram_repr].
    The result pairs the writer at the end with how the loop ended. *)
Fixpoint gen_bigram_repr_rows (mapping : dict pystr Z) (i : Z)
    (lines : list (list pystr)) (w : writer) : writer * outcome unit :=
  match lines with
  | [] => (w, Return ())
  | line :: lines' =>
      match unpack7 line with
      | None =>
          if decide (line = placeholder)
          then gen_bigram_repr_rows mapping (i + 1) lines' w
          else (w, Pdb)
      | Some r =>
          match encode_text mapping (text r) with
          | Return ohe =>
              let w' :=
                if (i mod 10000 =? 0) && negb (length (write_list w) =? 0)%nat
                then Writer [] (fout w ++ join newline (write_list w))
                else Writer (write_list w ++ [row_text r ohe]) (fout w) in
              gen_bigram_repr_rows mapping (i + 1) lines' w'
          | Raise e => (w, Raise e)
          | Pdb => (w, Pdb)
          end
      end
  end.

(** [gen_bigram_repr(path_in, path_out, path_mapping)]. The output file holds
    what was handed to [fout.write]; the loop never writes the rows still in
    [write_list] when it ends. *)
Definition gen_bigram_repr (csv_reader : pystr -> list (list pystr))
    (path_in path_out path_mapping : string) (fs : filesystem)
  : filesystem * outcome unit :=
  match load_mapping path_mapping fs with
  | Return mapping =>
      match fs !! path_in with
      | None => (fs, Raise (FileNotFoundError path_in))
      | Some _ =>
          let fs1 := <[path_out := []]> fs in
          let lines := csv_reader (default [] (fs1 !! path_in)) in
          let wr := gen_bigram_repr_rows mapping 0 lines (Writer [] []) in
          (<[path_out := fout wr.1]> fs1, wr.2)
      end
  | Raise e => (fs, Raise e)
  | Pdb => (fs, Pdb)
  end.

(** The parsed command line. *)
Record args : Type := Args {
  path_in : string;
  path_out : string;
  gen_mapping : bool;
  mapping_path : string;
  ch : Z;
  world : Z
}.

(** [main()], after [parse_cmd_args]. *)
Definition main (set_iter : gset pystr -> list pystr)
    (csv_reader : pystr -> list (list pystr)) (a : args) (fs : filesystem)
  : filesystem * outcome unit :=
  let generated : filesystem * outcome unit :=
    if gen_mapping a then
      match
        counts ← count_bigrams csv_reader fs (path_in a);
        top_n_ch ← get_top_n counts.1 (ch a);
        top_n_other ← get_top_n counts.2 (world a);
        Return (get_bigram_to_dim_mapping set_iter top_n_ch top_n_other)
      with
      | Return bigram_to_dim_mapping =>
          (dump_bigram_to_dim_mapping bigram_to_dim_mapping (mapping_path a) fs, Return ())
      | Raise e => (fs, Raise e)
      | Pdb => (fs, Pdb)
      end
    else (fs, Return ()) in
  match generated.2 with
  | Return _ => gen_bigram_repr csv_reader (path_in a) (path_out a) (mapping_path a) generated.1
  | stopped => (generated.1, stopped)
  end.

(* ===================================================================== *)
(** * bigram_based_models.py: the label loader *)
(* ===================================================================== *)

(** The two kinds of value [load_id_to_label] compares with [==]. *)
Inductive pyobj : Type :=
  | PStr (s : pystr)
  | PInt (z : Z).

(** [a == b]: a [str] and an [int] are never equal. *)
Definition py_eq (a b : pyobj) : bool :=
  match a, b with
  | PStr s, PStr t => bool_decide (s = t)
  | PInt x, PInt y => x =? y
  | _, _ => false
  end.

(** [num >= goal], an [int] against the float [limit / 2]. *)
Definition ge_goal (num : Z) (goal : Q) : bool := Qle_bool goal (inject_Z num).

(** The [for row in csv_reader] loop of [load_id_to_label]. [num_zeros] and
    [num_ones] are threaded through as the source has them: no statement of
    the loop assigns to either. ([line_counter] is written and never read.) *)
Fixpoint load_id_to_label_rows (goal : Q) (rows : list (list pystr))
    (num_zeros num_ones : Z) (id_to_label : dict pystr pystr) : dict pystr pystr :=
  match rows with
  | [] => id_to_label
  | row :: rows' =>
      if ge_goal num_ones goal && ge_goal num_zeros goal then id_to_label
      else
        match row with
        | [text_id; text; masked; label; corpus] =>
            if py_eq (PStr label) (PInt 0) && ge_goal num_zeros goal
            then load_id_to_label_rows goal rows' num_zeros num_ones id_to_label
            else if py_eq (PStr label) (PInt 1) && ge_goal num_ones goal
            then load_id_to_label_rows goal rows' num_zeros num_ones id_to_label
            else load_id_to_label_rows goal rows' num_zeros num_ones
                   (dict_set id_to_label text_id label)
        | _ => load_id_to_label_rows goal rows' num_zeros num_ones id_to_label
        end
  end.

(** [load_id_to_label(path, limit)]; [limit = None] is the default, on which
    [limit / 2] raises [TypeError]. *)
Definition load_id_to_label (csv_reader : pystr -> list (list pystr))
    (fs : filesystem) (path : string) (limit : option Z)
  : outcome (dict pystr pystr) :=
  match limit with
  | None => Raise TypeError
  | Some l =>
      let goal : Q := (l # 2)%Q in
      match fs !! path with
      | None => Raise (FileNotFoundError path)
      | Some content => Return (load_id_to_label_rows goal (csv_reader content) 0 0 [])
      end
  end.

(* ===================================================================== *)
(** * Vocabulary of the properties *)
(* ===================================================================== *)

(** How many values of [l] lie strictly above [t], and at or above it. *)
Definition count_above (t : Z) (l : list Z) : nat :=
  length (filter (fun c => t < c) l).

Definition count_at_least (t : Z) (l : list Z) : nat :=
  length (filter (fun c => t <= c) l).

(** [t] is the [n]-th largest value of [l], duplicates counted: it occurs in
    [l], fewer than [n] values are strictly larger, and at least [n] values
    are as large. *)
Definition nth_largest (l : list Z) (n : Z) (t : Z) : Prop :=
  t ∈ l ∧ Z.of_nat (count_above t l) < n <= Z.of_nat (count_at_least t l).

(** Every index of the mapping is a position of a vector of its size. *)
Definition mapping_in_range (mapping : dict pystr Z) : Prop :=
  Forall (fun kv : pystr * Z => 0 <= kv.2 < Z.of_nat (length mapping)) mapping.

(** A character of a text decoded from UTF-8: a code point that is not a
    surrogate. *)
Definition is_text_char (c : N) : Prop :=
  (c < 0xD800 ∨ (0xDFFF < c ∧ c <= 0x10FFFF))%N.

(** Every index of [0, D) is taken, [D] the size of the mapping. *)
Definition dense_indices (mapping : dict pystr Z) : Prop :=
  Forall (fun i : nat => Z.of_nat i ∈ map snd mapping) (seq 0 (length mapping)).

(** The mappings of the data model: a dictionary (no key twice) whose keys
    are strings of text characters and whose indices are dense over [0, D). *)
Record vocabulary_mapping (mapping : dict pystr Z) : Prop := {
  keys_unique : NoDup (map fst mapping);
  keys_text : Forall (fun kv : pystr * Z => Forall is_text_char kv.1) mapping;
  indices_dense : dense_indices mapping
}.

(** A set visited in descending order: one of the orders a run may see. *)
Definition reverse_sorted_iter (s : gset pystr) : list pystr := reverse (sorted_iter s).

(** The accepted ids of one class. *)
Definition ids_of_class (label : pystr) (id_to_label : dict pystr pystr) : list pystr :=
  map fst (filter (fun kv : pystr * pystr => kv.2 = label) id_to_label).

(** The order of a list sorted with [reverse=True]. *)
Definition desc (a b : Z) : Prop := b <= a.

(** How many of the bigrams the mapping sends to index [j]. *)
Definition hits (mapping : dict pystr Z) (j : nat) (bigrams : list pystr) : nat :=
  length (filter (fun b => dict_get mapping b = Some (Z.of_nat j)) bigrams).

(** The files of the concrete runs: a mapping file and a corpus of one record. *)
Definition fs_one_record : filesystem :=
  {[ "map.json" := Json.dumps [(py "aa", 0); (py "bb", 1)];
     "in.csv" := py "5,aabb,m,0,t,f,s" ++ newline ]}.

(** Two corpus rows with seven fields, as [csv.reader] yields them. *)
Definition record5 : list pystr :=
  [py "5"; py "aabb"; py "m"; py "0"; py "t"; py "f"; py "s"].

Definition record6 : list pystr :=
  [py "6"; py "bbb"; py "m"; py "1"; py "t"; py "f"; py "s"].

(** Three label rows of the zero class, as [csv.reader] yields them. *)
Definition label_rows3 : list (list pystr) :=
  [[py "a"; py "t"; py "m"; py "0"; py "c"];
   [py "b"; py "t"; py "m"; py "0"; py "c"];
   [py "c"; py "t"; py "m"; py "0"; py "c"]].

(** The label file of the concrete run. *)
Definition fs_labels : filesystem :=
  {[ "labels.csv" := py "a,t,m,0,c" ++ newline ++ py "b,t,m,0,c" ++ newline
                     ++ py "c,t,m,0,c" ++ newline ]}.


(* ===================================================================== *)
(** * Vocabulary of the further properties *)
(* ===================================================================== *)

(** How often [b] occurs in a list of bigrams. *)
Definition occurrences (b : pystr) (bs : list pystr) : nat :=
  length (filter (fun x => x = b) bs).

(** The bigrams of the records of one class, in order: class zero is
    [label_binary == '0'], the other class is everything else. *)
Definition record_bigrams (zero : bool) (records : list corpus_row) : list pystr :=
  flat_map (fun r => if eqb (bool_decide (label_binary r = py "0")) zero
                     then bigrams (text r) else []) records.

(** The record each row of [count_bigrams] is processed as: a row of seven
    fields as itself, any other row that gets past the [except] branch as the
    record the names still hold. *)
Fixpoint processed_as (locals : option corpus_row) (lines : list (list pystr))
  : list corpus_row :=
  match lines with
  | [] => []
  | line :: lines' =>
      match unpack7 line with
      | Some r => r :: processed_as (Some r) lines'
      | None =>
          match locals with
          | Some r => r :: processed_as locals lines'
          | None => []
          end
      end
  end.

(** The count a counts dictionary holds for [b]: 0 for a bigram it has no
    entry for. *)
Definition count_of (d : dict pystr Z) (b : pystr) : Z := default 0 (dict_get d b).

(** Every row is one that [count_bigrams] gets past: seven fields, or the
    placeholder. *)
Definition countable_rows (lines : list (list pystr)) : Prop :=
  Forall (fun line => is_Some (unpack7 line) ∨ line = placeholder) lines.

(** What a counts dictionary keeps: no key twice, no count below 1. *)
Definition counts_wf (d : dict pystr Z) : Prop :=
  NoDup (map fst d) ∧ Forall (fun kv : pystr * Z => 1 <= kv.2) d.

(** A corpus of two records and a placeholder row, for the concrete runs. *)
Definition fs_two_records : filesystem :=
  {[ "in.csv" := py "5,aabb,m,0,t,f,s" ++ newline ++ py "6,bbb,m,1,t,f,s" ++ newline ]}.

Definition rows_with_placeholder : list (list pystr) := [record5; placeholder; record6].

(** How many of the bigrams the mapping sends to the integer [idx]. *)
Definition hits_at (mapping : dict pystr Z) (idx : Z) (bigrams : list pystr) : nat :=
  length (filter (fun b => dict_get mapping b = Some idx) bigrams).

(** Every index of the mapping is one a vector of its size accepts: a
    position, or a negative index that counts from the end. *)
Definition mapping_wraps (mapping : dict pystr Z) : Prop :=
  Forall (fun kv : pystr * Z =>
            - Z.of_nat (length mapping) <= kv.2 < Z.of_nat (length mapping)) mapping.

(** The mapping sends the bigram to an index no vector of its size accepts. *)
Definition out_of_vector (mapping : dict pystr Z) (bigram : pystr) : Prop :=
  match dict_get mapping bigram with
  | Some idx => ¬ (- Z.of_nat (length mapping) <= idx < Z.of_nat (length mapping))
  | None => False
  end.

#[global] Instance out_of_vector_dec mapping bigram : Decision (out_of_vector mapping bigram).
Proof. unfold out_of_vector. destruct (dict_get mapping bigram); apply _. Defined.

(** The output row of a record whose text is encoded without error. *)
Definition encoded_row (mapping : dict pystr Z) (r : corpus_row) : pystr :=
  match encode_text mapping (text r) with
  | Return ohe => row_text r ohe
  | _ => []
  end.

(** The rows the encoder builds for the rows of the corpus that have seven
    fields, in order. *)
Definition encoded_rows (mapping : dict pystr Z) (lines : list (list pystr)) : list pystr :=
  map (encoded_row mapping) (omap unpack7 lines).


#[global] Instance is_text_char_dec c : Decision (is_text_char c).
Proof. unfold is_text_char. apply _. Defined.


(** The command line with the default selection sizes of [parse_cmd_args]. *)
Definition args_default_sizes : args :=
  Args "in.csv" "out.csv" true "map.json" 2000 10000.

(** A printable ASCII character, space to tilde. *)
Definition printable_ascii (c : N) : Prop := (32 <= c <= 126)%N.


(** ** Reading text files line by line *)

(** What a file opened in text mode hands over: ['\r\n'] and a lone ['\r']
    are read as ['\n']. *)
Fixpoint universal_newlines (s : pystr) : pystr :=
  match s with
  | [] => []
  | c :: s' =>
      if (c =? 13)%N then
        10%N :: match s' with
                | d :: s'' =>
                    if (d =? 10)%N then universal_newlines s'' else universal_newlines s'
                | [] => []
                end
      else c :: universal_newlines s'
  end.

(** The lines of a text, each with its line end; the last line has none when
    the text does not end with one. *)
Fixpoint lines_keepends (s : pystr) : list pystr :=
  match s with
  | [] => []
  | c :: s' =>
      if (c =? 10)%N then [c] :: lines_keepends s'
      else match lines_keepends s' with
           | line :: lines => (c :: line) :: lines
           | [] => [[c]]
           end
  end.

(** [for line in f] on a file opened with [open(path, 'r')]. *)
Definition file_lines (content : pystr) : list pystr :=
  lines_keepends (universal_newlines content).

(** [get_num_lines(path)] of [generate_bigram_repr.py]. *)
Definition get_num_lines (fs : filesystem) (path : string) : outcome Z :=
  match fs !! path with
  | None => Raise (FileNotFoundError path)
  | Some content => Return (foldl (fun count _ => count + 1) 0 (file_lines content))
  end.

(** [get_num_examples(path_in)] of [predict.py]. *)
Definition get_num_examples (fs : filesystem) (path_in : string) : outcome Z :=
  match fs !! path_in with
  | None => Raise (FileNotFoundError path_in)
  | Some content => Return (foldl (fun i _ => i + 1) 0 (file_lines content))
  end.

(** The text does not end with a line end, and is not empty. *)
Definition unterminated (s : pystr) : bool :=
  match last s with
  | Some c => negb (c =? 10)%N
  | None => false
  end.

(** ** The representation loader of [bigram_based_models.py] *)

(** [s.lstrip('\n')] and [s.strip('\n')]. *)
Fixpoint lstrip_newlines (s : pystr) : pystr :=
  match s with
  | c :: s' => if (c =? 10)%N then lstrip_newlines s' else s
  | [] => []
  end.

Definition strip_newlines (s : pystr) : pystr :=
  reverse (lstrip_newlines (reverse (lstrip_newlines s))).

(** [s.split(', ')]: the pieces between the occurrences of a comma followed
    by a space, found from the left. *)
Fixpoint split_comma_space (s : pystr) : list pystr :=
  match s with
  | [] => [[]]
  | c :: s' =>
      let keep := match split_comma_space s' with
                  | piece :: pieces => (c :: piece) :: pieces
                  | [] => [[c]]
                  end in
      match s' with
      | d :: s'' => if (c =? 44)%N && (d =? 32)%N then [] :: split_comma_space s'' else keep
      | [] => keep
      end
  end.

Section LoadIdToRepr.

(** [int(float(i))] on one column: a parameter, it returns the integer or
    raises ([ValueError] on a text that is no number, [OverflowError] on an
    infinity). *)
Variable int_float : pystr -> outcome Z.

(** [[int(float(i)) for i in columns[1:]]]: left to right, the first failure
    escapes. *)
Fixpoint int_float_all (columns : list pystr) : outcome (list Z) :=
  match columns with
  | [] => Return []
  | i :: columns' =>
      v ← int_float i; vs ← int_float_all columns'; Return (v :: vs)
  end.

(** The [for line in f] loop of [load_id_to_repr]. The lengths stand for
    [len] of the two dictionaries, which hold no key twice. *)
Fixpoint load_id_to_repr_lines (lines : list pystr) (id_to_label : dict pystr pystr)
    (id_to_repr : dict pystr (list Z)) (id_list_ordered : list pystr)
  : outcome (dict pystr (list Z) * list pystr) :=
  match lines with
  | [] => Return (id_to_repr, id_list_ordered)
  | line :: lines' =>
      if (length id_to_repr =? length id_to_label)%nat
      then Return (id_to_repr, id_list_ordered)
      else
        match split_comma_space (strip_newlines line) with
        | [] => Raise IndexError
        | text_id :: values =>
            repr ← int_float_all values;
            if dict_contains id_to_label text_id
            then load_id_to_repr_lines lines' id_to_label
                   (dict_set id_to_repr text_id repr) (id_list_ordered ++ [text_id])
            else load_id_to_repr_lines lines' id_to_label id_to_repr id_list_ordered
        end
  end.

(** [load_id_to_repr(path, id_to_label, limit)]; [limit] is not used. *)
Definition load_id_to_repr (fs : filesystem) (path : string)
    (id_to_label : dict pystr pystr) (limit : option Z)
  : outcome (dict pystr (list Z) * list pystr) :=
  match fs !! path with
  | None => Raise (FileNotFoundError path)
  | Some content => load_id_to_repr_lines (file_lines content) id_to_label [] []
  end.

End LoadIdToRepr.

(** A field that holds neither a comma nor a line end. *)
Definition plain_field (s : pystr) : Prop :=
  Forall (fun c => c <> 44%N /\ c <> 10%N) s.

(** [int(float(s))] on a decimal integer text of at most 2^53 in size, where
    the detour through [float] is exact. It instantiates the conversion in the
    concrete runs; other texts are not modelled. *)
Definition int_plain (s : pystr) : outcome Z :=
  let digits (t : pystr) : outcome Z :=
    match t, Json.take_digits t with
    | _ :: _, (u, []) =>
        let v := Z.of_N (N.of_uint u) in
        if v <=? 2 ^ 53 then Return v else Raise NotModelled
    | _, _ => Raise NotModelled
    end in
  match s with
  | c :: s' => if (c =? 45)%N then v ← digits s'; Return (- v) else digits s
  | [] => Raise NotModelled
  end.

(** A corpus row with numeric labels, and a file of two encoded rows. *)
Definition record_numeric : corpus_row :=
  CorpusRow (py "5") (py "aabb") (py "m") (py "0") (py "1") (py "2") (py "s").

Definition fs_repr : filesystem :=
  {[ "repr.csv" := py "5, 0, 1, 2, 1, 1" ++ newline ++ py "6, 1, 1, 2, 0, 2" ]}.

(** What holds of the two results of the loop of [load_id_to_repr] at every
    iteration: no key twice, the listed ids are the keys, each has a label. *)
Definition loader_inv (id_to_label : dict pystr pystr)
    (id_to_repr : dict pystr (list Z)) (id_list_ordered : list pystr) : Prop :=
  NoDup (map fst id_to_repr) /\
  (forall id, id ∈ id_list_ordered <-> id ∈ map fst id_to_repr) /\
  Forall (fun id => dict_contains id_to_label id = true) id_list_ordered.

(* ===================================================================== *)
(** * Properties of the selection *)
(* ===================================================================== *)

Lemma insert_desc_perm x l : insert_desc x l ≡ₚ x :: l.
Proof.
  induction l as [|y l IH]; simpl; [done|].
  destruct (y <? x); [done|]. rewrite IH. apply Permutation_swap.
Qed.

Lemma sorted_desc_perm l : sorted_desc l ≡ₚ l.
Proof.
  induction l as [|x l IH]; simpl; [done|].
  rewrite insert_desc_perm. by rewrite IH.
Qed.

Lemma sorted_desc_length l : length (sorted_desc l) = length l.
Proof. by rewrite sorted_desc_perm. Qed.

Lemma insert_desc_sorted x l :
  StronglySorted desc l → StronglySorted desc (insert_desc x l).
Proof.
  induction 1 as [|y l Hl IH Hy]; simpl.
  - repeat constructor.
  - destruct (Z.ltb_spec y x).
    + constructor; [by constructor|].
      constructor; [unfold desc; lia|].
      eapply Forall_impl; [exact Hy|]. unfold desc. intros; simpl in *; lia.
    + constructor; [done|].
      rewrite insert_desc_perm. constructor; [done|done].
Qed.

Lemma sorted_desc_sorted l : StronglySorted desc (sorted_desc l).
Proof.
  induction l; simpl; [constructor|]. by apply insert_desc_sorted.
Qed.

Lemma count_above_app t l1 l2 :
  count_above t (l1 ++ l2) = (count_above t l1 + count_above t l2)%nat.
Proof. unfold count_above. by rewrite filter_app, length_app. Qed.

Lemma count_at_least_app t l1 l2 :
  count_at_least t (l1 ++ l2) = (count_at_least t l1 + count_at_least t l2)%nat.
Proof. unfold count_at_least. by rewrite filter_app, length_app. Qed.

Lemma count_above_none t l : Forall (fun c => c <= t) l → count_above t l = 0%nat.
Proof.
  unfold count_above. induction 1 as [|c l Hc _ IH]; [done|].
  rewrite filter_cons_False; [done | lia].
Qed.

Lemma count_at_least_all t l : Forall (fun c => t <= c) l → count_at_least t l = length l.
Proof.
  unfold count_at_least. induction 1 as [|c l Hc _ IH]; [done|].
  rewrite filter_cons_True; [simpl; by rewrite IH | done].
Qed.

Lemma count_above_le_length t l : (count_above t l <= length l)%nat.
Proof. apply length_filter. Qed.

Lemma sorted_lookup_counts l i t :
  StronglySorted desc l → l !! i = Some t →
  (count_above t l <= i)%nat ∧ (i < count_at_least t l)%nat.
Proof.
  intros Hs Hi.
  pose proof (take_drop_middle l i t Hi) as Hl.
  pose proof (lookup_lt_Some _ _ _ Hi) as Hlt.
  rewrite <- Hl in Hs.
  assert (Forall (fun c => t <= c) (take i l)) as Hbefore.
  { apply Forall_forall. intros c Hc.
    apply (StronglySorted_app_1_elem_of desc _ _ c t Hs Hc). left. }
  assert (Forall (fun c => c <= t) (drop (S i) l)) as Hafter.
  { apply StronglySorted_app_1_r in Hs. apply StronglySorted_cons in Hs as [Hs _]. done. }
  rewrite <- Hl. split.
  - rewrite count_above_app. change (t :: drop (S i) l) with ([t] ++ drop (S i) l).
    rewrite count_above_app, (count_above_none t (drop _ _)) by done.
    rewrite (count_above_none t [t]) by (repeat constructor; lia).
    pose proof (count_above_le_length t (take i l)). rewrite length_take in H. lia.
  - rewrite count_at_least_app, (count_at_least_all t (take i l)) by done.
    change (t :: drop (S i) l) with ([t] ++ drop (S i) l).
    rewrite count_at_least_app, (count_at_least_all t [t]) by (repeat constructor; lia).
    rewrite length_take. simpl. lia.
Qed.

Lemma list_getitem_in_range {A} (l : list A) (i : Z) :
  0 <= i < Z.of_nat (length l) →
  ∃ x, l !! Z.to_nat i = Some x ∧ list_getitem l i = Return x.
Proof.
  intros Hi. destruct (lookup_lt_is_Some_2 l (Z.to_nat i)) as [x Hx]; [lia|].
  exists x. split; [done|]. unfold list_getitem.
  destruct (Z.ltb_spec i 0); [lia|].
  destruct (Z.leb_spec 0 i); [|lia].
  destruct (Z.ltb_spec i (Z.of_nat (length l))); [|lia].
  simpl. by rewrite Hx.
Qed.

Lemma list_getitem_beyond {A} (l : list A) (i : Z) :
  Z.of_nat (length l) <= i → list_getitem l i = Raise IndexError.
Proof.
  intros Hi. unfold list_getitem.
  destruct (Z.ltb_spec i 0); [lia|].
  destruct (Z.ltb_spec i (Z.of_nat (length l))); [lia|].
  by rewrite andb_false_r.
Qed.

Lemma length_filter_impl {A} (P Q : A → Prop) `{∀ x, Decision (P x)} `{∀ x, Decision (Q x)} l :
  (∀ x, P x → Q x) → (length (filter P l) <= length (filter Q l))%nat.
Proof.
  intros HPQ. induction l as [|x l IH]; [done|].
  destruct (decide (P x)) as [HP|HP].
  - rewrite (filter_cons_True P), (filter_cons_True Q) by auto. simpl. lia.
  - rewrite (filter_cons_False P) by done.
    destruct (decide (Q x)).
    + rewrite (filter_cons_True Q) by done. simpl. lia.
    + by rewrite (filter_cons_False Q).
Qed.

Lemma nth_largest_unique l n t1 t2 :
  nth_largest l n t1 → nth_largest l n t2 → t1 = t2.
Proof.
  assert (∀ a b, a < b → nth_largest l n a → nth_largest l n b → False) as Hlt.
  { intros a b Hab (_ & Ha & _) (_ & _ & Hb).
    assert (count_at_least b l <= count_above a l)%nat.
    { apply length_filter_impl. intros; lia. }
    lia. }
  intros H1 H2. destruct (Z.lt_trichotomy t1 t2) as [?|[?|?]]; [|done|]; exfalso; eauto.
Qed.

Lemma nth_largest_perm l l' n t : l ≡ₚ l' → nth_largest l n t → nth_largest l' n t.
Proof.
  intros Hp (Hin & Hc). unfold nth_largest, count_above, count_at_least in *.
  by rewrite <- Hp.
Qed.

Lemma sorted_desc_nth_largest l n t :
  1 <= n → sorted_desc l !! Z.to_nat (n - 1) = Some t → nth_largest l n t.
Proof.
  intros Hn Ht.
  destruct (sorted_lookup_counts _ _ _ (sorted_desc_sorted l) Ht) as [Ha Hb].
  apply (nth_largest_perm (sorted_desc l)); [apply sorted_desc_perm|].
  split; [by eapply list_elem_of_lookup_2|]. lia.
Qed.

Lemma length_filter_counts (t : Z) (d : dict pystr Z) :
  length (filter (fun bc : pystr * Z => t <= bc.2) d) = count_at_least t (map snd d).
Proof.
  unfold count_at_least. induction d as [|[k c] d IH]; [done|]. simpl.
  destruct (decide (t <= c)).
  - rewrite !filter_cons_True by done. simpl. by rewrite IH.
  - by rewrite !filter_cons_False.
Qed.

Lemma get_top_n_threshold bigram_counts n :
  1 <= n <= Z.of_nat (length bigram_counts) →
  ∃ threshold,
    nth_largest (map snd bigram_counts) n threshold ∧
    get_top_n bigram_counts n
    = Return (filter (fun bc : pystr * Z => threshold <= bc.2) bigram_counts).
Proof.
  intros Hn. unfold get_top_n.
  destruct (list_getitem_in_range (sorted_desc (map snd bigram_counts)) (n - 1))
    as (t & Ht & ->).
  { rewrite sorted_desc_length, length_map. lia. }
  exists t. split; [|done]. apply sorted_desc_nth_largest; [lia | done].
Qed.

(** C4: for a counts dictionary with at least [n] entries ([n >= 1]),
    [get_top_n] returns exactly the entries whose count is at least the
    [n]-th largest count (duplicates counted). All ties at the boundary are
    kept, so at least [n] entries come back, and the selection does not depend
    on the order in which the counts were inserted. *)
Theorem get_top_n_selects (bigram_counts : dict pystr Z) (n : Z) :
  1 <= n <= Z.of_nat (length bigram_counts) →
  ∃ threshold selected,
    get_top_n bigram_counts n = Return selected ∧
    nth_largest (map snd bigram_counts) n threshold ∧
    selected = filter (fun bc : pystr * Z => threshold <= bc.2) bigram_counts ∧
    n <= Z.of_nat (length selected) ∧
    ∀ bigram_counts', bigram_counts' ≡ₚ bigram_counts →
      ∃ selected', get_top_n bigram_counts' n = Return selected' ∧ selected' ≡ₚ selected.
Proof.
  intros Hn. destruct (get_top_n_threshold _ _ Hn) as (t & Hnth & Hget).
  exists t, (filter (fun bc : pystr * Z => t <= bc.2) bigram_counts).
  split; [done|]. split; [done|]. split; [done|]. split.
  - rewrite length_filter_counts. destruct Hnth as (_ & _ & ?). done.
  - intros bc' Hp.
    destruct (get_top_n_threshold bc' n) as (t' & Hnth' & Hget').
    { by rewrite Hp. }
    assert (t' = t) as ->.
    { eapply nth_largest_unique; [|exact Hnth].
      eapply nth_largest_perm; [|exact Hnth']. by rewrite Hp. }
    eexists. split; [exact Hget'|]. by rewrite Hp.
Qed.

Lemma get_top_n_selects_witness :
  ∃ threshold selected,
    get_top_n [(py "aa", 3); (py "ab", 2); (py "bb", 2); (py "ba", 1)] 2 = Return selected ∧
    nth_largest [3; 2; 2; 1] 2 threshold ∧
    selected = [(py "aa", 3); (py "ab", 2); (py "bb", 2)] ∧
    2 <= Z.of_nat (length selected).
Proof.
  destruct (get_top_n_selects [(py "aa", 3); (py "ab", 2); (py "bb", 2); (py "ba", 1)] 2)
    as (t & sel & Hget & Hnth & Hsel & Hlen & _).
  { simpl. lia. }
  exists t, sel. split; [exact Hget|]. split; [exact Hnth|]. split; [|exact Hlen].
  vm_compute in Hget. injection Hget as <-. reflexivity.
Defined.

(** C10: on a counts dictionary with fewer than [n] entries the lookup
    [counts[n-1]] is out of bounds and [get_top_n] raises [IndexError]; it
    does not return all the bigrams. *)
Theorem get_top_n_too_few (bigram_counts : dict pystr Z) (n : Z) :
  Z.of_nat (length bigram_counts) < n →
  get_top_n bigram_counts n = Raise IndexError.
Proof.
  intros Hn. unfold get_top_n. rewrite list_getitem_beyond; [done|].
  rewrite sorted_desc_length, length_map. lia.
Qed.

Lemma get_top_n_too_few_witness :
  get_top_n [(py "aa", 3); (py "ab", 2)] 3 = Raise IndexError.
Proof.
  apply (get_top_n_too_few [(py "aa", 3); (py "ab", 2)] 3). simpl. lia.
Defined.

(** Ties at the boundary push the selection past [n]; with [n = 0] the
    index [-1] picks the smallest count and everything is selected. *)
Lemma get_top_n_ties_exceed :
  get_top_n [(py "aa", 2); (py "ab", 2); (py "bb", 1)] 1
  = Return [(py "aa", 2); (py "ab", 2)].
Proof. reflexivity. Qed.

Lemma get_top_n_zero :
  get_top_n [(py "aa", 2); (py "ab", 2); (py "bb", 1)] 0
  = Return [(py "aa", 2); (py "ab", 2); (py "bb", 1)].
Proof. reflexivity. Qed.

(* ===================================================================== *)
(** * Properties of dictionaries and of the mapping *)
(* ===================================================================== *)

Section DictFacts.
Context {K V : Type} `{EqDecision K}.
Implicit Types (d : dict K V) (k : K) (v : V).

Lemma dict_get_None d k : dict_get d k = None ↔ k ∉ map fst d.
Proof.
  induction d as [|[k' v'] d IH]; simpl.
  - split; [intros _; apply not_elem_of_nil | done].
  - rewrite not_elem_of_cons. destruct (decide (k = k')) as [->|Hne].
    + split; [done | by intros [? _]].
    + rewrite IH. tauto.
Qed.

Lemma dict_get_is_Some d k : is_Some (dict_get d k) ↔ k ∈ map fst d.
Proof.
  rewrite <- not_eq_None_Some, dict_get_None.
  destruct (decide (k ∈ map fst d)); naive_solver.
Qed.

Lemma dict_get_elem_of d k v : dict_get d k = Some v → (k, v) ∈ d.
Proof.
  induction d as [|[k' v'] d IH]; simpl; [done|].
  destruct (decide (k = k')) as [->|]; [intros [= ->]; left | right; auto].
Qed.

Lemma dict_set_fresh d k v : k ∉ map fst d → dict_set d k v = d ++ [(k, v)].
Proof.
  induction d as [|[k' v'] d IH]; simpl; [done|].
  rewrite not_elem_of_cons. intros [Hne Hk].
  destruct (decide (k = k')); [done|]. by rewrite IH.
Qed.

Lemma dict_get_zip (ks : list K) (vs : list V) k v :
  NoDup ks → length ks = length vs →
  dict_get (zip ks vs) k = Some v ↔ ∃ i, ks !! i = Some k ∧ vs !! i = Some v.
Proof.
  intros Hnd. revert vs. induction Hnd as [|k' ks Hk' Hnd IH]; intros [|v' vs] Hlen;
    simplify_eq/=.
  - split; [done | by intros (i & ? & ?)].
  - destruct (decide (k = k')) as [->|Hne].
    + split.
      * intros [= ->]. by exists 0%nat.
      * intros ([|i] & Hi & Hv); simplify_eq/=; [done|].
        destruct Hk'. by eapply list_elem_of_lookup_2.
    + rewrite IH by done. split.
      * intros (i & ? & ?). by exists (S i).
      * intros ([|i] & Hi & Hv); simplify_eq/=. by exists i.
Qed.
End DictFacts.

Lemma assign_foldl (order : list pystr) (d : dict pystr Z) (i : Z) :
  NoDup order → (∀ b, b ∈ order → b ∉ map fst d) →
  foldl assign_dim (d, i) order
  = (d ++ zip order ((fun k => i + Z.of_nat k) <$> seq 0 (length order)),
     i + Z.of_nat (length order)).
Proof.
  intros Hnd. revert d i. induction Hnd as [|b order Hb Hnd IH]; intros d i Hfresh; simpl.
  - by rewrite app_nil_r, Z.add_0_r.
  - unfold assign_dim at 2. simpl. rewrite dict_set_fresh by (apply Hfresh; left).
    rewrite IH.
    + rewrite <- app_assoc. simpl. f_equal; [|lia]. f_equal. f_equal; [f_equal; lia|].
      f_equal. rewrite <- fmap_S_seq, <- list_fmap_compose.
      apply list_fmap_ext. intros _ k _. simpl. lia.
    + intros b' Hb'. rewrite map_app, elem_of_app. simpl.
      intros [?|?%list_elem_of_singleton]; [|congruence].
      eapply Hfresh; [right; exact Hb'|done].
Qed.

Lemma get_bigram_to_dim_mapping_zip set_iter top_n_ch top_n_other :
  let all_bigrams : gset pystr :=
    list_to_set (map fst top_n_ch) ∪ list_to_set (map fst top_n_other) in
  set_iter all_bigrams ≡ₚ elements all_bigrams →
  get_bigram_to_dim_mapping set_iter top_n_ch top_n_other
  = zip (set_iter all_bigrams) (Z.of_nat <$> seq 0 (size all_bigrams)).
Proof.
  intros all Hp. unfold get_bigram_to_dim_mapping. fold all.
  rewrite assign_foldl.
  - simpl. rewrite Hp at 2. done.
  - rewrite Hp. apply NoDup_elements.
  - intros b _. apply not_elem_of_nil.
Qed.

Lemma zip_fst_seq {A} (l : list A) (n : nat) :
  n = length l → map fst (zip l (Z.of_nat <$> seq 0 n)) = l.
Proof.
  intros ->. change (map fst ?x) with (x.*1). apply fst_zip.
  by rewrite length_fmap, length_seq.
Qed.

Lemma zip_snd_seq {A} (l : list A) (n : nat) :
  n = length l → map snd (zip l (Z.of_nat <$> seq 0 n)) = Z.of_nat <$> seq 0 n.
Proof.
  intros ->. change (map snd ?x) with (x.*2). apply snd_zip.
  by rewrite length_fmap, length_seq.
Qed.

(** C2, as the code has it: [get_bigram_to_dim_mapping] numbers the union of
    the two key sets from 0 in the order in which the loop visits the set,
    whatever that order is; nothing sorts it. The result pairs the i-th
    visited bigram with i, so it has one entry per bigram of the union, its
    keys are the union, and its indices are unique and dense over [0, D). *)
Theorem get_bigram_to_dim_mapping_follows_iteration
    (set_iter : gset pystr → list pystr) (top_n_ch top_n_other : dict pystr Z) :
  let all_bigrams : gset pystr :=
    list_to_set (map fst top_n_ch) ∪ list_to_set (map fst top_n_other) in
  let mapping := get_bigram_to_dim_mapping set_iter top_n_ch top_n_other in
  set_iter all_bigrams ≡ₚ elements all_bigrams →
  mapping = zip (set_iter all_bigrams) (Z.of_nat <$> seq 0 (size all_bigrams)) ∧
  length mapping = size all_bigrams ∧
  (∀ bigram, is_Some (dict_get mapping bigram) ↔
             bigram ∈ map fst top_n_ch ∨ bigram ∈ map fst top_n_other) ∧
  (∀ bigram (i : nat), dict_get mapping bigram = Some (Z.of_nat i) ↔
                       set_iter all_bigrams !! i = Some bigram) ∧
  NoDup (map fst mapping) ∧ mapping_in_range mapping ∧ dense_indices mapping ∧
  (∀ set_iter' : gset pystr → list pystr,
     set_iter' all_bigrams ≡ₚ elements all_bigrams →
     get_bigram_to_dim_mapping set_iter' top_n_ch top_n_other = mapping ↔
     set_iter' all_bigrams = set_iter all_bigrams).
Proof.
  intros all mapping Hp.
  assert (size all = length (set_iter all)) as Hsize.
  { rewrite Hp. done. }
  assert (NoDup (set_iter all)) as Hnd.
  { rewrite Hp. apply NoDup_elements. }
  assert (mapping = zip (set_iter all) (Z.of_nat <$> seq 0 (size all))) as Hzip.
  { by apply get_bigram_to_dim_mapping_zip. }
  assert (length mapping = size all) as Hlen.
  { rewrite Hzip, length_zip_with, length_fmap, length_seq. lia. }
  split; [done|]. split; [done|]. split; [|split; [|split; [|split; [|split]]]].
  - intros b. rewrite dict_get_is_Some, Hzip, zip_fst_seq by done.
    assert (b ∈ set_iter all ↔ b ∈ all) as ->.
    { rewrite Hp. apply elem_of_elements. }
    unfold all. rewrite elem_of_union, !elem_of_list_to_set. done.
  - intros b i. rewrite Hzip, dict_get_zip; [|done|by rewrite length_fmap, length_seq].
    split.
    + intros (j & Hj & Hv). rewrite list_lookup_fmap in Hv.
      apply fmap_Some in Hv as (x & Hx & Heq).
      apply lookup_seq in Hx as [-> _]. simpl in Heq.
      assert (j = i) as -> by lia. done.
    + intros Hi. exists i. split; [done|].
      rewrite list_lookup_fmap, lookup_seq_lt; [done|].
      rewrite Hsize. by eapply lookup_lt_Some.
  - by rewrite Hzip, zip_fst_seq.
  - unfold mapping_in_range. rewrite Hlen. apply Forall_forall. intros [b v] Hin.
    assert (v ∈ map snd mapping) as Hv.
    { apply list_elem_of_In, in_map_iff. exists (b, v). split; [done|]. by apply list_elem_of_In. }
    rewrite Hzip, zip_snd_seq in Hv by done.
    apply list_elem_of_fmap in Hv as (k & -> & Hk%elem_of_seq). simpl. lia.
  - unfold dense_indices. rewrite Hlen. apply Forall_forall. intros i Hi.
    rewrite Hzip, zip_snd_seq by done. by apply list_elem_of_fmap_2.
  - intros set_iter' Hp'.
    assert (size all = length (set_iter' all)) as Hsize' by (by rewrite Hp').
    rewrite (get_bigram_to_dim_mapping_zip set_iter') by done. fold all. rewrite Hzip.
    split; [|by intros ->].
    intros Heq. apply (f_equal (map fst)) in Heq. by rewrite !zip_fst_seq in Heq.
Qed.

Lemma reverse_sorted_iter_perm (s : gset pystr) : reverse_sorted_iter s ≡ₚ elements s.
Proof.
  unfold reverse_sorted_iter, sorted_iter.
  by rewrite reverse_Permutation, merge_sort_Permutation.
Qed.

Lemma sorted_iter_perm (s : gset pystr) : sorted_iter s ≡ₚ elements s.
Proof. unfold sorted_iter. by rewrite merge_sort_Permutation. Qed.

(** C2 as stated fails: visiting the union in descending order is a
    legitimate set iteration, and under it the bigrams [aa] and [ab] get the
    indices 1 and 0, not the sorted assignment 0 and 1. Two runs that visit
    the set in different orders produce different mappings. *)
Lemma get_bigram_to_dim_mapping_not_sorted :
  (∀ s, reverse_sorted_iter s ≡ₚ elements s) ∧
  get_bigram_to_dim_mapping reverse_sorted_iter [(py "aa", 7)] [(py "ab", 5)]
  = [(py "ab", 0); (py "aa", 1)] ∧
  sorted_mapping [(py "aa", 7)] [(py "ab", 5)] = [(py "aa", 0); (py "ab", 1)] ∧
  get_bigram_to_dim_mapping reverse_sorted_iter [(py "aa", 7)] [(py "ab", 5)]
  ≠ sorted_mapping [(py "aa", 7)] [(py "ab", 5)].
Proof.
  split; [exact reverse_sorted_iter_perm|].
  split; [by vm_compute|]. split; [by vm_compute|]. by vm_compute.
Qed.

Lemma get_bigram_to_dim_mapping_follows_iteration_witness :
  get_bigram_to_dim_mapping elements [(py "aa", 7)] [(py "ab", 5); (py "aa", 2)]
  = zip (elements (list_to_set [py "aa"] ∪ list_to_set [py "ab"; py "aa"] : gset pystr))
        [0; 1].
Proof.
  destruct (get_bigram_to_dim_mapping_follows_iteration elements
              [(py "aa", 7)] [(py "ab", 5); (py "aa", 2)]) as [H _].
  - reflexivity.
  - rewrite H. f_equal.
Defined.

(* ===================================================================== *)
(** * Properties of the encoder *)
(* ===================================================================== *)

Lemma np_incr_in_range (ohe : list Z) (idx : Z) :
  0 <= idx < Z.of_nat (length ohe) →
  np_incr ohe idx = Return (alter Z.succ (Z.to_nat idx) ohe).
Proof.
  intros Hi. unfold np_incr.
  destruct (Z.ltb_spec idx 0); [lia|].
  destruct (Z.leb_spec 0 idx); [|lia].
  by destruct (Z.ltb_spec idx (Z.of_nat (length ohe))); [|lia].
Qed.

Lemma np_incr_length (ohe ohe' : list Z) (idx : Z) :
  np_incr ohe idx = Return ohe' → length ohe' = length ohe.
Proof.
  unfold np_incr. case_match; [|done]. intros [= <-]. apply length_alter.
Qed.

Lemma mapping_in_range_get (mapping : dict pystr Z) (bigram : pystr) (idx : Z) :
  mapping_in_range mapping → dict_get mapping bigram = Some idx →
  0 <= idx < Z.of_nat (length mapping).
Proof.
  intros Hr Hg. apply dict_get_elem_of in Hg.
  unfold mapping_in_range in Hr. rewrite Forall_forall in Hr. exact (Hr _ Hg).
Qed.

Lemma vocabulary_mapping_in_range (mapping : dict pystr Z) :
  vocabulary_mapping mapping → mapping_in_range mapping.
Proof.
  intros [_ _ Hd]. unfold dense_indices in Hd. rewrite Forall_forall in Hd.
  assert (Z.of_nat <$> seq 0 (length mapping) ≡ₚ map snd mapping) as Hp.
  { apply submseteq_length_Permutation.
    - apply NoDup_submseteq.
      + apply NoDup_fmap_2; [apply _ | apply NoDup_seq].
      + intros v (i & -> & Hi)%list_elem_of_fmap. by apply Hd.
    - rewrite length_map, length_fmap, length_seq. done. }
  unfold mapping_in_range. apply Forall_forall. intros [b v] Hin.
  assert (v ∈ map snd mapping) as Hv.
  { apply list_elem_of_In, in_map_iff. exists (b, v). split; [done|].
    by apply list_elem_of_In. }
  rewrite <- Hp in Hv. apply list_elem_of_fmap in Hv as (i & -> & Hi%elem_of_seq).
  simpl. lia.
Qed.

Lemma hits_cons (mapping : dict pystr Z) (j : nat) (b : pystr) (bs : list pystr) :
  hits mapping j (b :: bs)
  = ((if decide (dict_get mapping b = Some (Z.of_nat j)) then 1 else 0) + hits mapping j bs)%nat.
Proof.
  unfold hits. destruct (decide _).
  - by rewrite filter_cons_True.
  - by rewrite filter_cons_False.
Qed.

Lemma count_into_absent (mapping : dict pystr Z) (ohe : list Z) (b : pystr) (bs : list pystr) :
  dict_get mapping b = None →
  count_into mapping ohe (b :: bs) = count_into mapping ohe bs.
Proof. intros Hb. simpl. unfold dict_contains. by rewrite Hb. Qed.

Lemma count_into_counts (mapping : dict pystr Z) (bs : list pystr) (ohe : list Z) :
  mapping_in_range mapping → length ohe = length mapping →
  ∃ ohe', count_into mapping ohe bs = Return ohe' ∧
          length ohe' = length ohe ∧
          ∀ (j : nat) (x : Z), ohe !! j = Some x →
            ohe' !! j = Some (x + Z.of_nat (hits mapping j bs)).
Proof.
  intros Hr. revert ohe. induction bs as [|b bs IH]; intros ohe Hlen.
  - exists ohe. split; [done|]. split; [done|]. intros j x Hj.
    rewrite Hj. f_equal. change (hits mapping j []) with 0%nat. lia.
  - simpl. unfold dict_contains. destruct (dict_get mapping b) as [idx|] eqn:Hb; simpl.
    + pose proof (mapping_in_range_get _ _ _ Hr Hb) as Hidx.
      rewrite np_incr_in_range by lia. simpl.
      destruct (IH (alter Z.succ (Z.to_nat idx) ohe)) as (ohe' & Hc & Hl & Hv).
      { by rewrite length_alter. }
      exists ohe'. split; [exact Hc|]. split; [by rewrite Hl, length_alter|].
      intros j x Hj. rewrite hits_cons, Hb.
      destruct (decide (Some idx = Some (Z.of_nat j))) as [[= ->]|Hne].
      * rewrite (Hv j (Z.succ x)); [f_equal; lia|].
        rewrite Nat2Z.id, list_lookup_alter_eq, Hj. done.
      * rewrite (Hv j x); [f_equal; lia|].
        rewrite list_lookup_alter_ne; [done|]. intros <-. apply Hne. f_equal. lia.
    + destruct (IH ohe Hlen) as (ohe' & Hc & Hl & Hv).
      exists ohe'. split; [exact Hc|]. split; [exact Hl|].
      intros j x Hj. rewrite hits_cons, Hb.
      destruct (decide (None = Some (Z.of_nat j))); [done|]. by apply Hv.
Qed.

Lemma encode_text_returns (mapping : dict pystr Z) (text : pystr) :
  mapping_in_range mapping →
  ∃ ohe, encode_text mapping text = Return ohe ∧
         length ohe = length mapping ∧
         ∀ j : nat, (j < length mapping)%nat →
           ohe !! j = Some (Z.of_nat (hits mapping j (bigrams text))).
Proof.
  intros Hr. unfold encode_text.
  destruct (count_into_counts mapping (bigrams text) (np_zeros (length mapping)) Hr)
    as (ohe & Hc & Hl & Hv).
  { apply length_replicate. }
  exists ohe. split; [exact Hc|]. split.
  - rewrite Hl. apply length_replicate.
  - intros j Hj. rewrite (Hv j 0); [done|]. by apply lookup_replicate_2.
Qed.

(** C5: under a mapping whose indices are positions of the vector, encoding
    a text raises nothing, and position [j] of the vector holds the number of
    adjacent-character bigrams of the text that the mapping sends to [j];
    bigrams without an entry in the mapping are counted nowhere. *)
Theorem encode_text_counts (mapping : dict pystr Z) (text : pystr) :
  mapping_in_range mapping →
  ∃ ohe, encode_text mapping text = Return ohe ∧
         ∀ j : nat, (j < length mapping)%nat →
           ohe !! j = Some (Z.of_nat (hits mapping j (bigrams text))).
Proof.
  intros Hr. destruct (encode_text_returns mapping text Hr) as (ohe & He & _ & Hv).
  by exists ohe.
Qed.

Lemma encode_text_counts_witness :
  encode_text [(py "aa", 0); (py "ab", 1); (py "bb", 2)] (py "aabba") = Return [1; 1; 1] ∧
  ∀ j : nat, (j < 3)%nat →
    [1; 1; 1] !! j
    = Some (Z.of_nat (hits [(py "aa", 0); (py "ab", 1); (py "bb", 2)] j (bigrams (py "aabba")))).
Proof.
  destruct (encode_text_counts [(py "aa", 0); (py "ab", 1); (py "bb", 2)] (py "aabba"))
    as (ohe & He & Hv).
  - unfold mapping_in_range. repeat constructor; simpl; lia.
  - vm_compute in He. injection He as <-. split; [reflexivity | exact Hv].
Defined.

Lemma count_into_length (mapping : dict pystr Z) (bs : list pystr) (ohe ohe' : list Z) :
  count_into mapping ohe bs = Return ohe' → length ohe' = length ohe.
Proof.
  revert ohe. induction bs as [|b bs IH]; intros ohe; simpl.
  - by intros [= <-].
  - destruct (dict_contains mapping b); [|apply IH].
    destruct (np_incr ohe _) as [ohe1| |] eqn:Hi; simpl; [|done|done].
    intros Hc. rewrite (IH _ Hc). by eapply np_incr_length.
Qed.

Lemma encode_text_length_any (mapping : dict pystr Z) (text : pystr) (ohe : list Z) :
  encode_text mapping text = Return ohe → length ohe = length mapping.
Proof.
  unfold encode_text. intros Hc. rewrite (count_into_length _ _ _ _ Hc).
  apply length_replicate.
Qed.

(** C6: under a mapping of size [D] whose indices are positions of the
    vector, every text is encoded, and its vector has length exactly [D],
    however long the text and however many of its bigrams have no entry. *)
Theorem encoded_vector_length (mapping : dict pystr Z) (text : pystr) :
  mapping_in_range mapping →
  ∃ ohe, encode_text mapping text = Return ohe ∧ length ohe = length mapping.
Proof.
  intros Hr. destruct (encode_text_returns mapping text Hr) as (ohe & He & Hl & _).
  by exists ohe.
Qed.

Lemma encoded_vector_length_witness :
  ∃ ohe, encode_text [(py "aa", 0); (py "bb", 1)] (py "abracadabra") = Return ohe ∧
         length ohe = 2%nat.
Proof.
  apply (encoded_vector_length [(py "aa", 0); (py "bb", 1)] (py "abracadabra")).
  unfold mapping_in_range. repeat constructor; simpl; lia.
Defined.

Lemma gen_bigram_repr_rows_unchanged_fout (mapping : dict pystr Z)
    (lines : list (list pystr)) (i : Z) (w : writer) :
  (i = 0 ∧ write_list w = []) ∨ 0 < i →
  i + Z.of_nat (length lines) <= 10000 →
  fout (gen_bigram_repr_rows mapping i lines w).1 = fout w.
Proof.
  revert i w. induction lines as [|line lines IH]; intros i w Hi Hn; [done|].
  simpl in Hn. simpl. destruct (unpack7 line) as [r|].
  - destruct (encode_text mapping (text r)) as [ohe| |]; [|done|done].
    assert ((i mod 10000 =? 0) && negb (length (write_list w) =? 0)%nat = false) as ->.
    { destruct Hi as [[-> ->]|Hi]; [done|].
      rewrite Z.mod_small by lia. by destruct (Z.eqb_spec i 0); [lia|]. }
    rewrite IH; [done | right; lia | lia].
  - destruct (decide (line = placeholder)); [|done].
    rewrite IH; [done| |lia].
    destruct Hi as [[-> Hw]|Hi]; right; lia.
Qed.

Lemma gen_bigram_repr_small_corpus_empty_output (mapping : dict pystr Z)
    (lines : list (list pystr)) :
  Z.of_nat (length lines) <= 10000 →
  fout (gen_bigram_repr_rows mapping 0 lines (Writer [] [])).1 = [].
Proof.
  intros Hn. rewrite gen_bigram_repr_rows_unchanged_fout; [done|by left|lia].
Qed.

(** C1, where the code departs from it: one record with seven fields, under
    the mapping [{aa: 0, bb: 1}]. Its row [5, 0, t, f, 1, 1] is built and put
    in [write_list], the loop ends, and nothing was ever handed to
    [fout.write]: the run ends normally and the output file is empty, with no
    row for the record. *)
Theorem gen_bigram_repr_row_not_written :
  gen_bigram_repr_rows [(py "aa", 0); (py "bb", 1)] 0 [record5] (Writer [] [])
  = (Writer [py "5, 0, t, f, 1, 1"] [], Return ()) ∧
  (gen_bigram_repr csv_plain "in.csv" "out.csv" "map.json" fs_one_record).1 !! "out.csv"
  = Some [] ∧
  (gen_bigram_repr csv_plain "in.csv" "out.csv" "map.json" fs_one_record).2 = Return ().
Proof. split; [reflexivity|]. split; by vm_compute. Qed.

Lemma gen_bigram_repr_rows_flush_step (mapping : dict pystr Z) (i : Z)
    (line : list pystr) (lines : list (list pystr)) (r : corpus_row) (ohe : list Z)
    (w : writer) :
  unpack7 line = Some r → encode_text mapping (text r) = Return ohe →
  i mod 10000 = 0 → write_list w ≠ [] →
  gen_bigram_repr_rows mapping i (line :: lines) w
  = gen_bigram_repr_rows mapping (i + 1) lines
      (Writer [] (fout w ++ join newline (write_list w))).
Proof.
  intros Hu He Hi Hw. simpl. rewrite Hu, He, Hi. simpl.
  destruct (write_list w); [done|]. done.
Qed.

Lemma gen_bigram_repr_rows_flush_drops_record :
  gen_bigram_repr_rows [(py "aa", 0); (py "bb", 1)] 10000 [record6]
    (Writer [py "5, 0, t, f, 1, 1"] [])
  = (Writer [] (py "5, 0, t, f, 1, 1"), Return ()).
Proof. reflexivity. Qed.

Lemma load_mapping_missing (path_mapping : string) (fs : filesystem) :
  fs !! path_mapping = None →
  load_mapping path_mapping fs
  = Raise (Exception
             "Bigram-to-dim-mapping not found. Please generate the mapping first!").
Proof. intros Hm. unfold load_mapping. by rewrite Hm. Qed.

(** C7: when no file exists at the mapping path, [gen_bigram_repr] raises the
    exception that names the missing mapping and leaves the files as they
    were: it writes no mapping and creates no output file. *)
Theorem gen_bigram_repr_mapping_missing (csv_reader : pystr → list (list pystr))
    (path_in path_out path_mapping : string) (fs : filesystem) :
  fs !! path_mapping = None →
  gen_bigram_repr csv_reader path_in path_out path_mapping fs
  = (fs, Raise (Exception
                  "Bigram-to-dim-mapping not found. Please generate the mapping first!")).
Proof.
  intros Hm. unfold gen_bigram_repr. by rewrite load_mapping_missing.
Qed.

Lemma gen_bigram_repr_mapping_missing_witness :
  gen_bigram_repr csv_plain "in.csv" "out.csv" "missing.json" fs_one_record
  = (fs_one_record,
     Raise (Exception
              "Bigram-to-dim-mapping not found. Please generate the mapping first!")).
Proof.
  apply (gen_bigram_repr_mapping_missing csv_plain "in.csv" "out.csv" "missing.json").
  reflexivity.
Defined.

Lemma main_mapping_missing (set_iter : gset pystr → list pystr)
    (csv_reader : pystr → list (list pystr)) (a : args) (fs : filesystem) :
  gen_mapping a = false → fs !! mapping_path a = None →
  main set_iter csv_reader a fs
  = (fs, Raise (Exception
                  "Bigram-to-dim-mapping not found. Please generate the mapping first!")).
Proof.
  intros Hg Hm. unfold main. rewrite Hg. simpl.
  unfold gen_bigram_repr. by rewrite load_mapping_missing.
Qed.

(* ===================================================================== *)
(** * Properties of the counting loop *)
(* ===================================================================== *)




(** The placeholder row is not a no-op in [count_bigrams]: after [pass] the
    loop body runs on the names bound by the row before, so that row is
    counted a second time; with no row before, the names are unbound. The loop
    of [gen_bigram_repr] has [continue] there and does skip the row. *)
Lemma count_bigrams_rows_placeholder_recounts :
  count_bigrams_rows [record5; placeholder] None [] []
  = Return ([(py "aa", 2); (py "ab", 2); (py "bb", 2)], []).
Proof. reflexivity. Qed.

Lemma count_bigrams_rows_placeholder_first :
  count_bigrams_rows [placeholder; record5] None [] []
  = Raise (UnboundLocalError "label_binary").
Proof. reflexivity. Qed.

Lemma gen_bigram_repr_rows_placeholder_skipped (mapping : dict pystr Z) (i : Z)
    (lines : list (list pystr)) (w : writer) :
  gen_bigram_repr_rows mapping i (placeholder :: lines) w
  = gen_bigram_repr_rows mapping (i + 1) lines w.
Proof. reflexivity. Qed.

(* ===================================================================== *)
(** * Properties of the label loader *)
(* ===================================================================== *)



(** C3, where the code departs from it: with [limit = 2] the quota per class
    is one id, yet three rows of the zero class are all accepted. The loop
    never adds to [num_zeros] or [num_ones], and it compares the label, a
    string, with the integers 0 and 1. *)
Theorem load_id_to_label_over_quota :
  load_id_to_label csv_plain fs_labels "labels.csv" (Some 2)
  = Return [(py "a", py "0"); (py "b", py "0"); (py "c", py "0")] ∧
  load_id_to_label_rows (2 # 2) label_rows3 0 0 []
  = [(py "a", py "0"); (py "b", py "0"); (py "c", py "0")] ∧
  ids_of_class (py "0") (load_id_to_label_rows (2 # 2) label_rows3 0 0 [])
  = [py "a"; py "b"; py "c"].
Proof. split; [by vm_compute|]. split; reflexivity. Qed.

(* ===================================================================== *)
(** * The [json] round trip *)
(* ===================================================================== *)

Module JsonFacts.
Import Json.
Local Open Scope N_scope.


Lemma hex_value_hex_digit (d : N) : d < 16 → hex_value (hex_digit d) = Some d.
Proof.
  intros Hd. unfold hex_digit, hex_value.
  destruct (N.ltb_spec d 10).
  - destruct (N.leb_spec 48 (48 + d)); [|lia].
    destruct (N.leb_spec (48 + d) 57); [|lia]. simpl. f_equal. lia.
  - destruct (N.leb_spec 48 (87 + d)); [|lia].
    destruct (N.leb_spec (87 + d) 57); [lia|]. simpl.
    destruct (N.leb_spec 97 (87 + d)); [|lia].
    destruct (N.leb_spec (87 + d) 102); [|lia]. simpl. f_equal. lia.
Qed.

Lemma hex_digits_sum (n : N) :
  n < 65536 →
  (n / 4096 mod 16) * 4096 + (n / 256 mod 16) * 256 + (n / 16 mod 16) * 16 + n mod 16 = n.
Proof.
  intros Hn.
  pose proof (N.div_mod n 16 ltac:(lia)) as H0.
  pose proof (N.div_mod (n / 16) 16 ltac:(lia)) as H1.
  pose proof (N.div_mod (n / 16 / 16) 16 ltac:(lia)) as H2.
  rewrite !N.Div0.div_div in H1, H2.
  change (16 * 16) with 256 in H1, H2.
  rewrite N.Div0.div_div in H2. change (256 * 16) with 4096 in H2.
  assert (n / 4096 < 16) as H3 by (apply N.Div0.div_lt_upper_bound; lia).
  rewrite (N.mod_small (n / 4096) 16) in * by done.
  lia.
Qed.

Lemma decode_u_escape (n : N) :
  n < 65536 →
  decode_uXXXX (hex_digit (n / 4096 mod 16)) (hex_digit (n / 256 mod 16))
               (hex_digit (n / 16 mod 16)) (hex_digit (n mod 16)) = Some n.
Proof.
  intros Hn. unfold decode_uXXXX.
  rewrite !hex_value_hex_digit by (apply N.mod_lt; lia). simpl.
  f_equal. by apply hex_digits_sum.
Qed.

Lemma testbit_small (l k i : N) : l < 2 ^ k → k <= i → N.testbit l i = false.
Proof.
  intros Hl Hi. destruct (N.eq_dec l 0) as [->|Hne]; [apply N.bits_0|].
  apply N.bits_above_log2. apply N.log2_lt_pow2 in Hl; lia.
Qed.

Lemma lor_shiftl_add (h l k : N) : l < 2 ^ k → N.lor (N.shiftl h k) l = h * 2 ^ k + l.
Proof.
  intros Hl. rewrite <- N.shiftl_mul_pow2.
  rewrite <- N.lxor_lor, <- N.add_nocarry_lxor; [done| |];
    (apply N.bits_inj_0; intros i; rewrite N.land_spec;
     destruct (N.lt_ge_cases i k);
     [rewrite N.shiftl_spec_low by done; done
     |rewrite (testbit_small l k i) by done; apply andb_false_r]).
Qed.

Lemma surrogate_high_value (n : N) :
  n < 1048576 → N.lor 0xd800 (N.land (N.shiftr n 10) 0x3ff) = 0xd800 + n / 1024.
Proof.
  intros Hn. change 0x3ff with (N.ones 10). rewrite N.land_ones, N.shiftr_div_pow2.
  change (2 ^ 10) with 1024.
  assert (n / 1024 < 1024) by (apply N.Div0.div_lt_upper_bound; lia).
  rewrite N.mod_small by done.
  change 0xd800 with (N.shiftl 54 10) at 1. rewrite lor_shiftl_add by (simpl; lia).
  reflexivity.
Qed.

Lemma surrogate_low_value (n : N) :
  N.lor 0xdc00 (N.land n 0x3ff) = 0xdc00 + n mod 1024.
Proof.
  change 0x3ff with (N.ones 10). rewrite N.land_ones.
  change (2 ^ 10) with 1024.
  pose proof (N.mod_lt n 1024 ltac:(lia)).
  change 0xdc00 with (N.shiftl 55 10) at 1. rewrite lor_shiftl_add by (simpl; lia).
  reflexivity.
Qed.

Lemma surrogates_join (n : N) :
  n < 1048576 → join_surrogates (0xd800 + n / 1024) (0xdc00 + n mod 1024) = 0x10000 + n.
Proof.
  intros Hn. unfold join_surrogates.
  rewrite (N.add_comm 0xd800), (N.add_comm 0xdc00), !N.add_sub.
  pose proof (N.mod_lt n 1024 ltac:(lia)).
  rewrite lor_shiftl_add by (simpl; lia). change (2 ^ 10) with 1024.
  pose proof (N.div_mod n 1024 ltac:(lia)). lia.
Qed.

Lemma surrogate_high_range (n : N) :
  n < 1048576 →
  is_high_surrogate (0xd800 + n / 1024) = true ∧ 0xd800 + n / 1024 < 65536.
Proof.
  intros Hn.
  assert (n / 1024 < 1024) by (apply N.Div0.div_lt_upper_bound; lia).
  generalize dependent (n / 1024). intros q Hq.
  unfold is_high_surrogate. split; [|lia].
  apply andb_true_iff. split; apply N.leb_le; lia.
Qed.

Lemma surrogate_low_range (n : N) :
  is_low_surrogate (0xdc00 + n mod 1024) = true ∧ 0xdc00 + n mod 1024 < 65536.
Proof.
  pose proof (N.mod_lt n 1024 ltac:(lia)) as Hr.
  generalize dependent (n mod 1024). intros r Hr.
  unfold is_low_surrogate. split; [|lia].
  apply andb_true_iff. split; apply N.leb_le; lia.
Qed.

Lemma scanstring_plain (c : N) (s : pystr) :
  c ≠ 34 → c ≠ 92 → 32 <= c →
  scanstring (c :: s) = append_char c (scanstring s).
Proof.
  intros H1 H2 H3. simpl.
  destruct (N.eqb_spec c 34); [done|]. destruct (N.eqb_spec c 92); [done|].
  by destruct (N.ltb_spec c 32); [lia|].
Qed.

Lemma scanstring_backslash (esc ch : N) (s : pystr) :
  esc ≠ 117 → BACKSLASH esc = Some ch →
  scanstring (92 :: esc :: s) = append_char ch (scanstring s).
Proof.
  intros H1 H2. simpl. destruct (N.eqb_spec esc 117); [done|]. by rewrite H2.
Qed.

Lemma scanstring_unicode (h1 h2 h3 h4 uni : N) (s : pystr) :
  decode_uXXXX h1 h2 h3 h4 = Some uni → is_high_surrogate uni = false →
  scanstring (92 :: 117 :: h1 :: h2 :: h3 :: h4 :: s) = append_char uni (scanstring s).
Proof.
  intros Hd Hh. cbn [scanstring]. change (92 =? 34) with false. change (92 =? 92) with true.
  change (117 =? 117) with true. cbv iota. rewrite Hd, Hh.
  by destruct s as [|? [|? [|? [|? [|? [|? ?]]]]]].
Qed.

Lemma scanstring_pair (h1 h2 h3 h4 g1 g2 g3 g4 uni uni2 : N) (s : pystr) :
  decode_uXXXX h1 h2 h3 h4 = Some uni → is_high_surrogate uni = true →
  decode_uXXXX g1 g2 g3 g4 = Some uni2 → is_low_surrogate uni2 = true →
  scanstring (92 :: 117 :: h1 :: h2 :: h3 :: h4 :: 92 :: 117 :: g1 :: g2 :: g3 :: g4 :: s)
  = append_char (join_surrogates uni uni2) (scanstring s).
Proof.
  intros Hd Hh Hd2 Hl. cbn [scanstring]. change (92 =? 34) with false.
  change (92 =? 92) with true. change (117 =? 117) with true. cbv iota.
  rewrite Hd, Hh. simpl andb. cbv iota. by rewrite Hd2, Hl.
Qed.

Lemma text_char_not_high_surrogate (c : N) :
  is_text_char c → is_high_surrogate c = false.
Proof.
  intros Hc. unfold is_high_surrogate.
  destruct (N.leb_spec 0xd800 c); [|done].
  destruct (N.leb_spec c 0xdbff); [|done]. unfold is_text_char in Hc. lia.
Qed.

(** One entry of [ESCAPE_DCT]: the character is the one tested first, and
    its two-character escape is read back through [BACKSLASH]. *)
Ltac short_escape c :=
  lazymatch goal with
  | |- context [c =? ?k] =>
      destruct (N.eqb_spec c k) as [->|]; [by apply scanstring_backslash|]
  end.

Lemma scanstring_escape_char (c : N) (tail : pystr) :
  is_text_char c →
  scanstring (escape_char c ++ tail) = append_char c (scanstring tail).
Proof.
  intros Hc. unfold escape_char. do 7 short_escape c.
  destruct ((32 <=? c) && (c <=? 126)) eqn:Hp.
  - apply andb_true_iff in Hp as [Hlo%N.leb_le _]. by apply scanstring_plain.
  - destruct (N.ltb_spec c 0x10000) as [Hb|Hb].
    + apply scanstring_unicode; [by apply decode_u_escape|].
      by apply text_char_not_high_surrogate.
    + assert (c - 0x10000 < 1048576) as Hn by (unfold is_text_char in Hc; lia).
      rewrite surrogate_high_value, surrogate_low_value by done.
      destruct (surrogate_high_range _ Hn) as [Hh Hh'].
      destruct (surrogate_low_range (c - 0x10000)) as [Hl Hl'].
      unfold u_escape. simpl app.
      erewrite scanstring_pair; [|by apply decode_u_escape|done|by apply decode_u_escape|done].
      rewrite surrogates_join by done. f_equal. lia.
Qed.

Lemma scanstring_encoded (s rest : pystr) :
  Forall is_text_char s →
  scanstring (flat_map escape_char s ++ 34 :: rest) = Return (s, rest).
Proof.
  induction 1 as [|c s Hc _ IH]; [done|].
  simpl flat_map. rewrite <- app_assoc, scanstring_escape_char, IH by done. done.
Qed.

Lemma take_digits_uint (d : Decimal.uint) (sep : N) (r : pystr) :
  is_digit sep = false →
  take_digits (uint_chars d ++ sep :: r) = (d, sep :: r).
Proof.
  intros Hsep. induction d; simpl; rewrite ?Hsep, ?IHd; reflexivity.
Qed.

Lemma unorm_fixed_D0 (d : Decimal.uint) : unorm (D0 d) = D0 d → d = Nil.
Proof.
  unfold unorm. simpl. pose proof (nzhead_nonzero d) as Hnz.
  destruct (nzhead d) eqn:E; intros H; try discriminate H.
  - by injection H.
  - by destruct (Hnz u).
Qed.

Lemma to_uint_normal (n : N) : unorm (N.to_uint n) = N.to_uint n.
Proof.
  rewrite <- (DecimalN.Unsigned.of_to n) at 2. by rewrite DecimalN.Unsigned.to_of.
Qed.

Lemma uint_chars_head_digit (d : Decimal.uint) (rest : pystr) :
  d ≠ Nil → ∃ c s, uint_chars d ++ rest = c :: s ∧ is_digit c = true ∧ c ≠ 45.
Proof.
  intros Hd. destruct d; [done|..]; simpl; eexists _, _; (split; [reflexivity|done]).
Qed.

Lemma scan_nat_uint (d : Decimal.uint) (sep : N) (r : pystr) :
  unorm d = d → is_digit sep = false →
  scan_nat (uint_chars d ++ sep :: r) = Return (N.of_uint d, sep :: r).
Proof.
  intros Hd Hnd.
  destruct d as [|d|d|d|d|d|d|d|d|d|d]; [discriminate Hd| |..].
  1: { by apply unorm_fixed_D0 in Hd as ->. }
  all: unfold scan_nat;
    lazymatch goal with
    | |- context [uint_chars ?u ++ _] =>
        pose proof (take_digits_uint u sep r Hnd) as Ht
    end;
    cbn [uint_chars app] in *; by rewrite Ht.
Qed.

Lemma scan_value_str_of_int (z : Z) (sep : N) (r : pystr) :
  sep = 44 ∨ sep = 125 →
  scan_value (str_of_int z ++ sep :: r) = Return (z, sep :: r).
Proof.
  intros Hsep. unfold str_of_int.
  assert (is_digit sep = false ∧ float_follows (sep :: r) = false) as [Hnd Hff].
  { by destruct Hsep as [-> | ->]. }
  pose proof (to_uint_normal (Z.abs_N z)) as Hn.
  pose proof (scan_nat_uint _ sep r Hn Hnd) as Hs.
  rewrite DecimalN.Unsigned.of_to in Hs.
  destruct (uint_chars_head_digit (N.to_uint (Z.abs_N z)) (sep :: r))
    as (c & s & Hcs & Hc & Hc45).
  { intros E. by rewrite E in Hn. }
  destruct (Z.ltb_spec z 0) as [Hz|Hz]; simpl app; rewrite Hcs in *.
  - unfold scan_value, scan_int. change (45 =? 45) with true. cbv iota. simpl orb. cbv iota.
    rewrite Hc, Hs. simpl in Hff |- *. rewrite Hff. do 2 f_equal. lia.
  - unfold scan_value, scan_int. rewrite Hc, orb_true_r.
    destruct (N.eqb_spec c 45); [done|]. rewrite Hs. simpl in Hff |- *. rewrite Hff.
    do 2 f_equal. lia.
Qed.

Lemma str_of_int_head (z : Z) (rest : pystr) :
  ∃ c s, str_of_int z ++ rest = c :: s ∧ is_ws c = false.
Proof.
  unfold str_of_int. destruct (z <? 0)%Z; [by eexists _, _|].
  destruct (uint_chars_head_digit (N.to_uint (Z.abs_N z)) rest) as (c & s & -> & Hc & _).
  { intros E. pose proof (to_uint_normal (Z.abs_N z)) as Hn. by rewrite E in Hn. }
  exists c, s. split; [done|]. unfold is_digit in Hc. unfold is_ws.
  apply andb_true_iff in Hc as [Hlo%N.leb_le _].
  destruct (N.eqb_spec c 32); [lia|]. destruct (N.eqb_spec c 9); [lia|].
  destruct (N.eqb_spec c 10); [lia|]. by destruct (N.eqb_spec c 13); [lia|].
Qed.

Lemma encode_item_text (k : pystr) (v : Z) (tail : pystr) :
  encode_item (k, v) ++ tail
  = 34 :: flat_map escape_char k ++ 34 :: 58 :: 32 :: str_of_int v ++ tail.
Proof.
  unfold encode_item, encode_basestring_ascii. simpl. by rewrite <- !app_assoc.
Qed.

Lemma object_pairs_value (fuel : nat) (k : pystr) (v : Z) (sep : N) (tail : pystr) :
  Forall is_text_char k → sep = 44 ∨ sep = 125 →
  object_pairs (S fuel) (flat_map escape_char k ++ 34 :: 58 :: 32 :: str_of_int v ++ sep :: tail)
  = if sep =? 125 then Return ([(k, v)], tail)
    else match skip_ws tail with
         | 34 :: s3 => pr ← object_pairs fuel s3; Return ((k, v) :: pr.1, pr.2)
         | _ => Raise (JSONDecodeError "Expecting property name enclosed in double quotes")
         end.
Proof.
  intros Hk Hsep. cbn [object_pairs]. rewrite scanstring_encoded by done.
  cbn [mbind outcome_bind fst snd]. change (skip_ws (58 :: ?s)) with (58 :: s). cbv iota.
  change (skip_ws (32 :: ?s)) with (skip_ws s).
  destruct (str_of_int_head v (sep :: tail)) as (c & s & Hcs & Hc).
  assert (skip_ws (str_of_int v ++ sep :: tail) = str_of_int v ++ sep :: tail) as ->.
  { rewrite Hcs. simpl. by rewrite Hc. }
  rewrite scan_value_str_of_int by done. cbn [mbind outcome_bind fst snd].
  by destruct Hsep as [-> | ->].
Qed.

Lemma object_pairs_items (l : list (pystr * Z)) (fuel : nat) (rest : pystr) :
  l ≠ [] → Forall (fun kv : pystr * Z => Forall is_text_char kv.1) l →
  (length l <= fuel)%nat →
  ∃ s, join [44; 32] (map encode_item l) ++ 125 :: rest = 34 :: s ∧
       object_pairs fuel s = Return (l, rest).
Proof.
  intros Hne Hl. revert fuel. induction Hl as [|[k v] l Hk Hl IH]; [done|].
  intros [|fuel] Hfuel; [simpl in Hfuel; lia|]. simpl in Hfuel.
  destruct l as [|kv' l'].
  - simpl join. rewrite encode_item_text. eexists. split; [reflexivity|].
    by rewrite object_pairs_value by (done || by right).
  - destruct (IH ltac:(done) fuel ltac:(simpl in *; lia)) as (s3 & Hs3 & Hp).
    change (join [44; 32] (map encode_item ((k, v) :: kv' :: l')))
      with (encode_item (k, v) ++ [44; 32] ++ join [44; 32] (map encode_item (kv' :: l'))).
    rewrite <- !app_assoc, Hs3, encode_item_text. eexists. split; [reflexivity|].
    change ([44; 32] ++ 34 :: s3) with (44 :: 32 :: 34 :: s3).
    rewrite object_pairs_value by (done || by left).
    change (44 =? 125) with false. cbv iota.
    change (skip_ws (32 :: 34 :: s3)) with (34 :: s3). cbv iota.
    by rewrite Hp.
Qed.

Lemma foldl_dict_set_fresh {K V : Type} `{EqDecision K} (d l : dict K V) :
  NoDup (map fst (d ++ l)) →
  foldl (fun d kv => dict_set d kv.1 kv.2) d l = d ++ l.
Proof.
  revert d. induction l as [|[k v] l IH]; intros d Hnd; simpl.
  - by rewrite app_nil_r.
  - rewrite dict_set_fresh.
    + rewrite IH; [by rewrite <- app_assoc|]. by rewrite <- app_assoc.
    + rewrite map_app in Hnd. apply NoDup_app in Hnd as (_ & Hd & _).
      intros Hin. apply (Hd k Hin). simpl. left.
Qed.

Lemma dict_of_pairs_unique {K V : Type} `{EqDecision K} (l : dict K V) :
  NoDup (map fst l) → dict_of_pairs l = l.
Proof. intros Hnd. unfold dict_of_pairs. by rewrite foldl_dict_set_fresh. Qed.

Lemma length_join_items (l : list (pystr * Z)) :
  (length l <= length (join [44%N; 32%N] (map encode_item l)))%nat.
Proof.
  induction l as [|[k v] [|kv' l'] IH]; [done| |].
  - simpl. unfold encode_item, encode_basestring_ascii. simpl. lia.
  - change (join [44; 32] (map encode_item ((k, v) :: kv' :: l')))
      with (encode_item (k, v) ++ [44; 32] ++ join [44; 32] (map encode_item (kv' :: l'))).
    rewrite !length_app. simpl length in *. lia.
Qed.

Lemma loads_dumps (d : dict pystr Z) :
  NoDup (map fst d) → Forall (fun kv : pystr * Z => Forall is_text_char kv.1) d →
  loads (dumps d) = Return d.
Proof.
  intros Hnd Hk. destruct (decide (d = [])) as [->|Hne]; [reflexivity|].
  destruct (object_pairs_items d (length (dumps d)) [] Hne Hk) as (s & Hs & Hp).
  { unfold dumps. rewrite !length_app. pose proof (length_join_items d). simpl. lia. }
  unfold loads. unfold dumps at 1. change ([123] ++ ?x) with (123 :: x).
  change (skip_ws (123 :: ?x)) with (123 :: x). cbv iota.
  change [125] with (125 :: @nil N). rewrite Hs.
  change (skip_ws (34 :: s)) with (34 :: s). cbv iota.
  rewrite Hp. cbn [mbind outcome_bind fst snd skip_ws].
  by rewrite dict_of_pairs_unique.
Qed.

(** ** The fuel of [object_pairs]

    Every step of the parser consumes text, so any fuel above the length of
    the text gives the same result. *)

Lemma append_char_Return (c : N) (r : outcome (pystr * pystr)) (k rest : pystr) :
  append_char c r = Return (k, rest) →
  ∃ k', r = Return (k', rest) ∧ k = c :: k'.
Proof.
  destruct r as [[k' rest']| |]; simpl; [|done|done].
  intros [= <- <-]. by exists k'.
Qed.

Lemma scanstring_shorter (n : nat) (s k rest : pystr) :
  (length s <= n)%nat → scanstring s = Return (k, rest) →
  (length rest < length s)%nat.
Proof.
  revert s k rest. induction n as [|n IH]; intros s k rest Hn Hs.
  { destruct s; [discriminate Hs | simpl in Hn; lia]. }
  assert (∀ c s' (k0 : pystr),
            (length s' <= n)%nat → append_char c (scanstring s') = Return (k0, rest) →
            (length rest < length s')%nat) as Hrec.
  { intros c s' k0 Hs' (k' & Hk' & _)%append_char_Return. by eapply IH. }
  destruct s as [|c s1]; [discriminate Hs|]. simpl in Hn. simpl in Hs.
  destruct (c =? 34); [injection Hs as _ <-; simpl; lia|].
  destruct (c =? 92).
  - destruct s1 as [|esc s2]; [discriminate Hs|]. simpl in Hn.
    destruct (esc =? 117).
    + destruct s2 as [|h1 [|h2 [|h3 [|h4 s3]]]]; try discriminate Hs. simpl in Hn.
      destruct (decode_uXXXX h1 h2 h3 h4) as [uni|]; [|discriminate Hs].
      destruct s3 as [|b [|u [|g1 [|g2 [|g3 [|g4 s4]]]]]];
        try (apply Hrec in Hs; simpl in *; lia).
      simpl in Hn.
      destruct (is_high_surrogate uni && (b =? 92) && (u =? 117));
        [|apply Hrec in Hs; simpl in *; lia].
      destruct (decode_uXXXX g1 g2 g3 g4) as [uni2|]; [|discriminate Hs].
      destruct (is_low_surrogate uni2); apply Hrec in Hs; simpl in *; lia.
    + destruct (BACKSLASH esc); [|discriminate Hs].
      apply Hrec in Hs; simpl in *; lia.
  - destruct (c <? 32); [discriminate Hs|]. apply Hrec in Hs; simpl in *; lia.
Qed.

Lemma skip_ws_length (s : pystr) : (length (skip_ws s) <= length s)%nat.
Proof.
  induction s as [|c s IH]; simpl; [done|]. destruct (is_ws c); simpl; lia.
Qed.

Lemma take_digits_length (s : pystr) : (length (take_digits s).2 <= length s)%nat.
Proof.
  induction s as [|c s IH]; simpl; [done|]. destruct (is_digit c); simpl; lia.
Qed.

Lemma scan_nat_shorter (s : pystr) (v : N) (rest : pystr) :
  scan_nat s = Return (v, rest) → (length rest <= length s)%nat.
Proof.
  unfold scan_nat. destruct s as [|c s']; [done|].
  destruct (c =? 48); [intros [= _ <-]; simpl; lia|].
  destruct (is_digit c); [|done]. intros [= _ <-]. apply (take_digits_length (c :: s')).
Qed.

Lemma scan_value_shorter (s : pystr) (v : Z) (rest : pystr) :
  scan_value s = Return (v, rest) → (length rest <= length s)%nat.
Proof.
  unfold scan_value. destruct s as [|c s']; [done|].
  destruct ((c =? 45) || is_digit c); [|by repeat case_match].
  unfold scan_int. destruct (c =? 45).
  - destruct s' as [|d s'']; [done|]. destruct (is_digit d); [|by case_match].
    destruct (scan_nat (d :: s'')) as [[n r]| |] eqn:Hn; simpl; [|done|done].
    apply scan_nat_shorter in Hn. destruct (float_follows r); [done|].
    intros [= _ <-]. simpl in *. lia.
  - destruct (scan_nat (c :: s')) as [[n r]| |] eqn:Hn; simpl; [|done|done].
    apply scan_nat_shorter in Hn. destruct (float_follows r); [done|].
    by intros [= _ <-].
Qed.

Lemma object_pairs_fuel (fuel1 fuel2 : nat) (s : pystr) :
  (length s < fuel1)%nat → (length s < fuel2)%nat →
  object_pairs fuel1 s = object_pairs fuel2 s.
Proof.
  revert fuel2 s. induction fuel1 as [|fuel1 IH]; intros [|fuel2] s H1 H2; try lia.
  simpl. destruct (scanstring s) as [[k r1]| |] eqn:Hk; simpl; [|done|done].
  apply (scanstring_shorter (length s)) in Hk; [|done].
  pose proof (skip_ws_length r1) as Hw1.
  destruct (skip_ws r1) as [|c s1]; [done|].
  destruct (c =? 58) eqn:Hc; [|by repeat case_match; try discriminate Hc].
  apply N.eqb_eq in Hc as ->.
  pose proof (skip_ws_length s1) as Hw2.
  destruct (scan_value (skip_ws s1)) as [[v r2]| |] eqn:Hv; simpl; [|done|done].
  apply scan_value_shorter in Hv.
  pose proof (skip_ws_length r2) as Hw3.
  destruct (skip_ws r2) as [|c2 s2]; [done|].
  destruct (c2 =? 44) eqn:Hc2.
  - apply N.eqb_eq in Hc2 as ->.
    pose proof (skip_ws_length s2) as Hw4.
    destruct (skip_ws s2) as [|c3 s3]; [done|].
    destruct (c3 =? 34) eqn:Hc3; [|by repeat case_match; try discriminate Hc3].
    apply N.eqb_eq in Hc3 as ->.
    rewrite (IH fuel2 s3); [done| |]; simpl in *; lia.
  - by repeat case_match; try discriminate Hc2.
Qed.

End JsonFacts.

(* ===================================================================== *)
(** * Properties of the mapping file *)
(* ===================================================================== *)

(** C9: a vocabulary mapping written with [dump_bigram_to_dim_mapping] and
    read back the way [gen_bigram_repr] reads it is the mapping that was
    written: the same bigrams with the same indices, in the same order. *)
Theorem mapping_file_round_trip (bigram_to_dim_mapping : dict pystr Z)
    (path : string) (fs : filesystem) :
  vocabulary_mapping bigram_to_dim_mapping →
  load_mapping path (dump_bigram_to_dim_mapping bigram_to_dim_mapping path fs)
  = Return bigram_to_dim_mapping.
Proof.
  intros [Hnd Hk _]. unfold load_mapping, dump_bigram_to_dim_mapping.
  rewrite lookup_insert_eq. by apply JsonFacts.loads_dumps.
Qed.

Lemma mapping_file_round_trip_witness :
  load_mapping "map.json"
    (dump_bigram_to_dim_mapping [(py "ab", 1); (py "aa", 0); ([228%N; 128512%N], 2)]
       "map.json" ∅)
  = Return [(py "ab", 1); (py "aa", 0); ([228%N; 128512%N], 2)].
Proof.
  apply mapping_file_round_trip. split.
  - compute_done.
  - repeat constructor; unfold is_text_char; lia.
  - unfold dense_indices. compute_done.
Defined.

(** Outside the vocabulary mappings the round trip can fail: a key that holds
    a high surrogate followed by a low surrogate as two code points (which no
    text decoded from UTF-8 does) is read back as the single character they
    encode. *)
Lemma loads_dumps_surrogate_pair :
  Json.loads (Json.dumps [([0xd83d%N; 0xde00%N], 0)]) = Return [([0x1f600%N], 0)].
Proof. reflexivity. Qed.
(* ===================================================================== *)
(** * Further properties of bigram counting *)
(* ===================================================================== *)

Section DictUpdates.
Context {K V : Type} `{EqDecision K}.
Implicit Types (d : dict K V) (k : K) (v : V).

Lemma dict_get_set d k v k' :
  dict_get (dict_set d k v) k' = if decide (k' = k) then Some v else dict_get d k'.
Proof.
  induction d as [|[k0 v0] d IH]; simpl.
  - by destruct (decide (k' = k)).
  - destruct (decide (k = k0)) as [->|Hne]; simpl.
    + by destruct (decide (k' = k0)).
    + rewrite IH. destruct (decide (k' = k0)) as [->|]; [|done].
      by destruct (decide (k0 = k)); [congruence|].
Qed.

Lemma dict_set_keys d k v :
  map fst (dict_set d k v) = if decide (k ∈ map fst d) then map fst d else map fst d ++ [k].
Proof.
  induction d as [|[k0 v0] d IH]; simpl.
  - destruct (decide (k ∈ [])) as [Hin|]; [by apply elem_of_nil in Hin | done].
  - destruct (decide (k = k0)) as [->|Hne]; simpl.
    + destruct (decide (k0 ∈ k0 :: map fst d)) as [|Hn]; [done|]. destruct Hn. left.
    + rewrite IH. destruct (decide (k ∈ map fst d)) as [Hin|Hin].
      * destruct (decide (k ∈ k0 :: map fst d)) as [|Hn]; [done|]. destruct Hn. by right.
      * destruct (decide (k ∈ k0 :: map fst d)) as [Hin'|]; [|done].
        apply elem_of_cons in Hin' as [?|?]; done.
Qed.

Lemma dict_set_NoDup d k v : NoDup (map fst d) → NoDup (map fst (dict_set d k v)).
Proof.
  intros Hnd. rewrite dict_set_keys. destruct (decide (k ∈ map fst d)); [done|].
  apply NoDup_app. split; [done|]. split; [|apply NoDup_singleton].
  intros x Hx ->%list_elem_of_singleton. done.
Qed.

Lemma dict_set_Forall (P : K * V → Prop) d k v :
  Forall P d → P (k, v) → Forall P (dict_set d k v).
Proof.
  intros Hd Hkv. induction Hd as [|[k0 v0] d H0 Hd IH]; simpl.
  - by constructor.
  - destruct (decide (k = k0)); constructor; done.
Qed.
End DictUpdates.

Lemma count_of_incr (d : dict pystr Z) (b b' : pystr) :
  count_of (incr d b) b' = count_of d b' + (if decide (b' = b) then 1 else 0).
Proof.
  unfold count_of, incr. rewrite dict_get_set.
  destruct (decide (b' = b)) as [->|]; simpl; lia.
Qed.

Lemma occurrences_cons (b x : pystr) (bs : list pystr) :
  occurrences b (x :: bs) = ((if decide (x = b) then 1 else 0) + occurrences b bs)%nat.
Proof.
  unfold occurrences. destruct (decide (x = b)).
  - by rewrite filter_cons_True.
  - by rewrite filter_cons_False.
Qed.

Lemma occurrences_app (b : pystr) (bs bs' : list pystr) :
  occurrences b (bs ++ bs') = (occurrences b bs + occurrences b bs')%nat.
Proof. unfold occurrences. by rewrite filter_app, length_app. Qed.

Lemma count_of_foldl_incr (bs : list pystr) (d : dict pystr Z) (b : pystr) :
  count_of (foldl incr d bs) b = count_of d b + Z.of_nat (occurrences b bs).
Proof.
  revert d. induction bs as [|x bs IH]; intros d; simpl.
  - unfold occurrences. simpl. lia.
  - rewrite IH, count_of_incr, occurrences_cons.
    destruct (decide (b = x)) as [Heq|Hne]; destruct (decide (x = b)) as [?|?];
      try congruence; lia.
Qed.

Lemma count_of_count_text (d : dict pystr Z) (text : pystr) (b : pystr) :
  count_of (count_text d text) b = count_of d b + Z.of_nat (occurrences b (bigrams text)).
Proof. apply count_of_foldl_incr. Qed.

Lemma counts_wf_incr (d : dict pystr Z) (b : pystr) : counts_wf d → counts_wf (incr d b).
Proof.
  intros [Hnd Hpos]. split; [by apply dict_set_NoDup|].
  apply dict_set_Forall; [done|]. simpl.
  destruct (dict_get d b) as [c|] eqn:Hc; simpl; [|lia].
  apply dict_get_elem_of in Hc. rewrite Forall_forall in Hpos.
  specialize (Hpos _ Hc). simpl in Hpos. lia.
Qed.

Lemma counts_wf_count_text (d : dict pystr Z) (text : pystr) :
  counts_wf d → counts_wf (count_text d text).
Proof.
  unfold count_text. generalize (bigrams text). intros bs. revert d.
  induction bs as [|b bs IH]; intros d Hd; simpl; [done|].
  by apply IH, counts_wf_incr.
Qed.

Lemma counts_wf_nil : counts_wf [].
Proof. split; [apply NoDup_nil_2 | constructor]. Qed.

Lemma unpack7_placeholder : unpack7 placeholder = None.
Proof. reflexivity. Qed.

Lemma record_bigrams_cons (zero : bool) (r : corpus_row) (rs : list corpus_row) :
  record_bigrams zero (r :: rs)
  = (if eqb (bool_decide (label_binary r = py "0")) zero then bigrams (text r) else [])
    ++ record_bigrams zero rs.
Proof. reflexivity. Qed.

(** The loop on rows it gets past, from any state of the two dictionaries:
    it returns, and each dictionary grows by the occurrences among the records
    the rows are processed as. *)
Lemma count_bigrams_rows_counts (lines : list (list pystr)) (locals : option corpus_row)
    (ch other : dict pystr Z) :
  countable_rows lines →
  is_Some locals ∨ (∃ l rest, lines = l :: rest ∧ is_Some (unpack7 l)) ∨ lines = [] →
  ∃ ch' other',
    count_bigrams_rows lines locals ch other = Return (ch', other') ∧
    ∀ b, count_of ch' b
         = count_of ch b
           + Z.of_nat (occurrences b (record_bigrams true (processed_as locals lines))) ∧
         count_of other' b
         = count_of other b
           + Z.of_nat (occurrences b (record_bigrams false (processed_as locals lines))).
Proof.
  intros Hrows. revert locals ch other.
  induction Hrows as [|line lines Hline Hrows IH]; intros locals ch other Hloc.
  { exists ch, other. split; [done|]. intros b. unfold occurrences. simpl. lia. }
  assert (∃ r, match unpack7 line with
               | Some r => Return (Some r)
               | None => if decide (line = placeholder) then Return locals else Pdb
               end = Return (Some r) ∧
               processed_as locals (line :: lines) = r :: processed_as (Some r) lines)
    as (r & Htry & Hproc).
  { simpl. destruct (unpack7 line) as [r|] eqn:Hu; [by exists r|].
    destruct Hline as [[? Hs] | ->]; [congruence|].
    rewrite decide_True by done.
    destruct Hloc as [[r ->]|[(l & rest & Heq & Hl)|Heq]]; [by exists r| |done].
    injection Heq as <- <-. rewrite unpack7_placeholder in Hl. by destruct Hl. }
  rewrite Hproc. cbn [count_bigrams_rows]. rewrite Htry. cbn [mbind outcome_bind].
  destruct (decide (label_binary r = py "0")) as [Hz|Hz].
  - destruct (IH (Some r) (count_text ch (text r)) other) as (ch' & other' & Hc & Hv);
      [by left|].
    exists ch', other'. split; [exact Hc|]. intros b. destruct (Hv b) as [H1 H2].
    rewrite H1, H2, !record_bigrams_cons, !occurrences_app, count_of_count_text.
    rewrite (bool_decide_eq_true_2 _ Hz). simpl.
    change (occurrences b []) with 0%nat. lia.
  - destruct (IH (Some r) ch (count_text other (text r))) as (ch' & other' & Hc & Hv);
      [by left|].
    exists ch', other'. split; [exact Hc|]. intros b. destruct (Hv b) as [H1 H2].
    rewrite H1, H2, !record_bigrams_cons, !occurrences_app, count_of_count_text.
    rewrite (bool_decide_eq_false_2 _ Hz). simpl.
    change (occurrences b []) with 0%nat. lia.
Qed.

Lemma processed_as_well_formed (locals : option corpus_row) (lines : list (list pystr)) :
  Forall (fun l => is_Some (unpack7 l)) lines →
  processed_as locals lines = omap unpack7 lines.
Proof.
  intros Hwf. revert locals. induction Hwf as [|l lines [r Hr] _ IH]; intros locals; [done|].
  simpl. rewrite Hr. simpl. by rewrite IH.
Qed.

Lemma bigrams_positions_lookup (text : pystr) (i : nat) (bigram : pystr) :
  bigrams text !! i = Some bigram ↔
  ∃ a b, text !! i = Some a ∧ text !! S i = Some b ∧ bigram = [a; b].
Proof.
  unfold bigrams. change (map ?f ?l) with (f <$> l).
  rewrite list_lookup_fmap, fmap_Some. split.
  - intros ([a b] & Hz & ->). apply lookup_zip_with_Some in Hz as (a' & b' & [= <- <-] & Ha & Hb).
    rewrite lookup_drop in Hb. by exists a, b.
  - intros (a & b & Ha & Hb & ->). exists (a, b). split; [|done].
    apply lookup_zip_with_Some. exists a, b. by rewrite lookup_drop.
Qed.

(** X1: the i-th bigram of a text is made of its characters i and i+1; a
    text of [n] characters has [n - 1] bigrams, none when [n <= 1]. *)
Theorem bigrams_positions (text : pystr) :
  length (bigrams text) = (length text - 1)%nat ∧
  ∀ (i : nat) (bigram : pystr),
    bigrams text !! i = Some bigram ↔
    ∃ a b, text !! i = Some a ∧ text !! S i = Some b ∧ bigram = [a; b].
Proof.
  split; [|apply bigrams_positions_lookup].
  unfold bigrams. rewrite length_map, length_zip_with, length_drop. lia.
Qed.

(** X2: on a corpus whose rows all have seven fields, [count_bigrams] returns,
    and the count it holds for a bigram in the dictionary of class zero
    (of the other class) is the number of its occurrences in the texts of the
    rows with [label_binary == '0'] (with any other label); a bigram without
    an entry occurs nowhere. *)
Theorem count_bigrams_exact (csv_reader : pystr → list (list pystr))
    (fs : filesystem) (path_in : string) (content : pystr) :
  fs !! path_in = Some content →
  Forall (fun l => is_Some (unpack7 l)) (csv_reader content) →
  ∃ ch other,
    count_bigrams csv_reader fs path_in = Return (ch, other) ∧
    ∀ b, count_of ch b
         = Z.of_nat (occurrences b (record_bigrams true (omap unpack7 (csv_reader content)))) ∧
         count_of other b
         = Z.of_nat (occurrences b (record_bigrams false (omap unpack7 (csv_reader content)))).
Proof.
  intros Hfs Hwf. unfold count_bigrams. rewrite Hfs.
  destruct (count_bigrams_rows_counts (csv_reader content) None [] [])
    as (ch & other & Hc & Hv).
  - eapply Forall_impl; [exact Hwf|]. by left.
  - destruct Hwf as [|l rest Hl _]; [by right; right|]. right; left. by exists l, rest.
  - exists ch, other. split; [exact Hc|]. intros b. destruct (Hv b) as [H1 H2].
    rewrite H1, H2, processed_as_well_formed by done. unfold count_of. simpl. lia.
Qed.

Lemma count_bigrams_exact_witness :
  ∃ ch other,
    count_bigrams csv_plain fs_two_records "in.csv" = Return (ch, other) ∧
    ∀ b, count_of ch b = Z.of_nat (occurrences b (bigrams (py "aabb"))) ∧
         count_of other b = Z.of_nat (occurrences b (bigrams (py "bbb"))).
Proof.
  destruct (count_bigrams_exact csv_plain fs_two_records "in.csv"
              (py "5,aabb,m,0,t,f,s" ++ newline ++ py "6,bbb,m,1,t,f,s" ++ newline))
    as (ch & other & Hc & Hv).
  - reflexivity.
  - repeat constructor; by eexists.
  - exists ch, other. split; [exact Hc|]. intros b. destruct (Hv b) as [H1 H2].
    rewrite H1, H2. split; f_equal; f_equal; vm_compute; by rewrite !app_nil_r.
Defined.

(** X3: when the first row has seven fields and every later row has seven
    fields or is the placeholder, [count_bigrams] returns, and a placeholder
    row is counted as the record before it once more: the counts are the
    occurrences among the records the rows are processed as. *)
Theorem count_bigrams_rows_placeholder_repeats
    (line : list pystr) (lines : list (list pystr)) :
  is_Some (unpack7 line) → countable_rows lines →
  ∃ ch other,
    count_bigrams_rows (line :: lines) None [] [] = Return (ch, other) ∧
    ∀ b, count_of ch b
         = Z.of_nat (occurrences b (record_bigrams true (processed_as None (line :: lines)))) ∧
         count_of other b
         = Z.of_nat (occurrences b (record_bigrams false (processed_as None (line :: lines)))).
Proof.
  intros Hl Hrows.
  destruct (count_bigrams_rows_counts (line :: lines) None [] [])
    as (ch & other & Hc & Hv).
  - constructor; [by left | done].
  - right; left. by exists line, lines.
  - exists ch, other. split; [exact Hc|]. intros b. destruct (Hv b) as [H1 H2].
    rewrite H1, H2. unfold count_of. simpl dict_get. simpl default. lia.
Qed.

Lemma count_bigrams_rows_placeholder_repeats_witness :
  ∃ ch other,
    count_bigrams_rows rows_with_placeholder None [] [] = Return (ch, other) ∧
    ∀ b, count_of ch b
         = Z.of_nat (occurrences b (bigrams (py "aabb") ++ bigrams (py "aabb"))) ∧
         count_of other b = Z.of_nat (occurrences b (bigrams (py "bbb"))).
Proof.
  destruct (count_bigrams_rows_placeholder_repeats record5 [placeholder; record6])
    as (ch & other & Hc & Hv).
  - by eexists.
  - unfold countable_rows. apply Forall_cons. split; [by right|].
    apply Forall_cons. split; [left; by eexists | constructor].
  - exists ch, other. split; [exact Hc|]. intros b. destruct (Hv b) as [H1 H2].
    rewrite H1, H2. split; reflexivity.
Defined.

Lemma bigrams_two_chars (text : pystr) : Forall (fun b => length b = 2%nat) (bigrams text).
Proof. unfold bigrams. apply Forall_forall. intros b (x & -> & _)%list_elem_of_fmap. done. Qed.

Lemma foldl_incr_keys (bs : list pystr) (d : dict pystr Z) :
  Forall (fun b => length b = 2%nat) bs →
  Forall (fun kv : pystr * Z => length kv.1 = 2%nat) d →
  Forall (fun kv : pystr * Z => length kv.1 = 2%nat) (foldl incr d bs).
Proof.
  intros Hbs. revert d. induction Hbs as [|b bs Hb _ IH]; intros d Hd; simpl; [done|].
  apply IH. unfold incr. by apply dict_set_Forall.
Qed.

(** X4: the two dictionaries [count_bigrams] returns are well formed,
    whatever rows it got past: no bigram is a key twice, every key has exactly
    two characters, and no count is below 1. *)
Theorem count_bigrams_rows_dictionaries (lines : list (list pystr))
    (ch other : dict pystr Z) :
  count_bigrams_rows lines None [] [] = Return (ch, other) →
  counts_wf ch ∧ counts_wf other ∧
  Forall (fun kv : pystr * Z => length kv.1 = 2%nat) (ch ++ other).
Proof.
  assert (∀ locals d1 d2,
            counts_wf d1 → counts_wf d2 →
            Forall (fun kv : pystr * Z => length kv.1 = 2%nat) (d1 ++ d2) →
            count_bigrams_rows lines locals d1 d2 = Return (ch, other) →
            counts_wf ch ∧ counts_wf other ∧
            Forall (fun kv : pystr * Z => length kv.1 = 2%nat) (ch ++ other)) as Hgen.
  { induction lines as [|line lines IH]; intros locals d1 d2 H1 H2 Hk; simpl.
    - by intros [= <- <-].
    - destruct (match unpack7 line with
                | Some r => Return (Some r)
                | None => if decide (line = placeholder) then Return locals else Pdb
                end) as [[r|]| |]; simpl; try done.
      apply Forall_app in Hk as [Hk1 Hk2].
      destruct (decide (label_binary r = py "0")).
      + apply IH; [by apply counts_wf_count_text | done |].
        apply Forall_app. split; [|done].
        apply foldl_incr_keys; [apply bigrams_two_chars | done].
      + apply IH; [done | by apply counts_wf_count_text |].
        apply Forall_app. split; [done|].
        apply foldl_incr_keys; [apply bigrams_two_chars | done]. }
  apply Hgen; [apply counts_wf_nil | apply counts_wf_nil | constructor].
Qed.

Lemma count_bigrams_rows_dictionaries_witness :
  counts_wf [(py "aa", 2); (py "ab", 2); (py "bb", 2)] ∧
  counts_wf [(py "bb", 2)] ∧
  Forall (fun kv : pystr * Z => length kv.1 = 2%nat)
         ([(py "aa", 2); (py "ab", 2); (py "bb", 2)] ++ [(py "bb", 2)]).
Proof.
  apply (count_bigrams_rows_dictionaries rows_with_placeholder). reflexivity.
Defined.

(* ===================================================================== *)
(** * Further properties of the selection *)
(* ===================================================================== *)

Lemma list_getitem_Return {A} (l : list A) (i : Z) (x : A) :
  list_getitem l i = Return x →
  - Z.of_nat (length l) <= i < Z.of_nat (length l).
Proof.
  unfold list_getitem. destruct (Z.ltb_spec i 0) as [Hi|Hi].
  - destruct (Z.leb_spec 0 (Z.of_nat (length l) + i));
      destruct (Z.ltb_spec (Z.of_nat (length l) + i) (Z.of_nat (length l)));
      simpl; intros Hr; try discriminate Hr; lia.
  - destruct (Z.leb_spec 0 i); destruct (Z.ltb_spec i (Z.of_nat (length l)));
      simpl; intros Hr; try discriminate Hr; lia.
Qed.

Lemma list_getitem_below {A} (l : list A) (i : Z) :
  i < - Z.of_nat (length l) → list_getitem l i = Raise IndexError.
Proof.
  intros Hi. unfold list_getitem. destruct (Z.ltb_spec i 0); [|lia].
  by destruct (Z.leb_spec 0 (Z.of_nat (length l) + i)); [lia|].
Qed.

Lemma list_getitem_wrap {A} (l : list A) (i : Z) :
  - Z.of_nat (length l) <= i < 0 →
  list_getitem l i = list_getitem l (i + Z.of_nat (length l)).
Proof.
  intros Hi. unfold list_getitem.
  destruct (Z.ltb_spec i 0); [|lia].
  destruct (Z.ltb_spec (i + Z.of_nat (length l)) 0); [lia|].
  by rewrite (Z.add_comm i).
Qed.

Lemma get_top_n_Return_range (bigram_counts selected : dict pystr Z) (n : Z) :
  get_top_n bigram_counts n = Return selected →
  - Z.of_nat (length bigram_counts) < n <= Z.of_nat (length bigram_counts).
Proof.
  unfold get_top_n.
  destruct (list_getitem _ (n - 1)) as [t| |] eqn:Ht; simpl; [|done|done].
  intros _. apply list_getitem_Return in Ht.
  rewrite sorted_desc_length, length_map in Ht. lia.
Qed.

Lemma count_above_filter (t : Z) (d : dict pystr Z) :
  count_above t (map snd (filter (fun bc : pystr * Z => t <= bc.2) d))
  = count_above t (map snd d).
Proof.
  unfold count_above. induction d as [|[k c] d IH]; [done|].
  destruct (decide (t <= c)).
  - rewrite (filter_cons_True (fun bc : pystr * Z => t <= bc.2)) by done. simpl.
    destruct (decide (t < c)).
    + rewrite !(filter_cons_True (fun c0 => t < c0)) by done. simpl. by rewrite IH.
    + by rewrite !(filter_cons_False (fun c0 => t < c0)) by done.
  - rewrite (filter_cons_False (fun bc : pystr * Z => t <= bc.2)) by done. simpl.
    rewrite (filter_cons_False (fun c0 => t < c0)) by lia. done.
Qed.

Lemma filter_filter_threshold (t t' : Z) (d : dict pystr Z) :
  t' <= t →
  filter (fun bc : pystr * Z => t <= bc.2) (filter (fun bc : pystr * Z => t' <= bc.2) d)
  = filter (fun bc : pystr * Z => t <= bc.2) d.
Proof.
  intros Ht. induction d as [|[k c] d IH]; [done|].
  destruct (decide (t' <= c)).
  - rewrite (filter_cons_True (fun bc : pystr * Z => t' <= bc.2)) by done.
    destruct (decide (t <= c)).
    + rewrite !(filter_cons_True (fun bc : pystr * Z => t <= bc.2)) by done. by rewrite IH.
    + by rewrite !(filter_cons_False (fun bc : pystr * Z => t <= bc.2)) by done.
  - rewrite (filter_cons_False (fun bc : pystr * Z => t' <= bc.2)) by done.
    rewrite (filter_cons_False (fun bc : pystr * Z => t <= bc.2)) by (simpl; lia). done.
Qed.

Lemma nth_largest_selected (d : dict pystr Z) (n t : Z) :
  nth_largest (map snd d) n t →
  nth_largest (map snd (filter (fun bc : pystr * Z => t <= bc.2) d)) n t.
Proof.
  intros (Hin & Ha & Hb). split; [|split].
  - apply list_elem_of_In, in_map_iff in Hin as ([k c] & <- & Hkc).
    apply list_elem_of_In, in_map_iff. exists (k, c). split; [done|].
    apply list_elem_of_In, list_elem_of_filter. split; [simpl; lia|].
    by apply list_elem_of_In.
  - by rewrite count_above_filter.
  - rewrite <- length_filter_counts, filter_filter_threshold by lia.
    by rewrite length_filter_counts.
Qed.

Lemma nth_largest_antitone (l : list Z) (n m t1 t2 : Z) :
  n <= m → nth_largest l n t1 → nth_largest l m t2 → t2 <= t1.
Proof.
  intros Hnm (_ & Ha & _) (_ & _ & Hb).
  destruct (Z.le_gt_cases t2 t1) as [|Hlt]; [done|].
  assert (count_at_least t2 l <= count_above t1 l)%nat.
  { apply length_filter_impl. intros; lia. }
  lia.
Qed.

(** X5: selecting twice changes nothing: for [n >= 1], [get_top_n] applied to
    its own result with the same [n] returns that result. *)
Theorem get_top_n_idempotent (bigram_counts selected : dict pystr Z) (n : Z) :
  1 <= n → get_top_n bigram_counts n = Return selected →
  get_top_n selected n = Return selected.
Proof.
  intros Hn Hget. pose proof (get_top_n_Return_range _ _ _ Hget) as Hr.
  destruct (get_top_n_threshold bigram_counts n) as (t & Hnth & Hsel); [lia|].
  rewrite Hget in Hsel. injection Hsel as ->.
  pose proof (nth_largest_selected _ _ _ Hnth) as Hnth'.
  destruct (get_top_n_threshold (filter (fun bc : pystr * Z => t <= bc.2) bigram_counts) n)
    as (t' & Ht' & ->).
  { rewrite length_filter_counts. destruct Hnth as (_ & _ & ?). lia. }
  rewrite (nth_largest_unique _ _ _ _ Ht' Hnth').
  by rewrite filter_filter_threshold.
Qed.

Lemma get_top_n_idempotent_witness :
  get_top_n [(py "aa", 3); (py "ab", 2); (py "bb", 2)] 2
  = Return [(py "aa", 3); (py "ab", 2); (py "bb", 2)].
Proof.
  apply (get_top_n_idempotent [(py "aa", 3); (py "ab", 2); (py "bb", 2); (py "ba", 1)]);
    [lia | reflexivity].
Defined.

(** X6: a larger [n] selects more: for [1 <= n <= m], what [get_top_n]
    selects for [n] is what it selects for [m] with some entries left out,
    in the same order. *)
Theorem get_top_n_monotone (bigram_counts s1 s2 : dict pystr Z) (n m : Z) :
  1 <= n <= m →
  get_top_n bigram_counts n = Return s1 → get_top_n bigram_counts m = Return s2 →
  s1 `sublist_of` s2.
Proof.
  intros Hnm H1 H2.
  pose proof (get_top_n_Return_range _ _ _ H1). pose proof (get_top_n_Return_range _ _ _ H2).
  destruct (get_top_n_threshold bigram_counts n) as (t1 & Hn1 & Hs1); [lia|].
  destruct (get_top_n_threshold bigram_counts m) as (t2 & Hn2 & Hs2); [lia|].
  rewrite H1 in Hs1. rewrite H2 in Hs2. injection Hs1 as ->. injection Hs2 as ->.
  rewrite <- (filter_filter_threshold t1 t2).
  - apply sublist_filter.
  - eapply nth_largest_antitone; [|exact Hn1|exact Hn2]. lia.
Qed.

Lemma get_top_n_monotone_witness :
  [(py "aa", 3)] `sublist_of` [(py "aa", 3); (py "ab", 2); (py "bb", 2)].
Proof.
  apply (get_top_n_monotone [(py "aa", 3); (py "ab", 2); (py "bb", 2); (py "ba", 1)] _ _ 1 2);
    [lia | reflexivity | reflexivity].
Defined.

Lemma filter_all (t : Z) (d : dict pystr Z) :
  count_at_least t (map snd d) = length d →
  filter (fun bc : pystr * Z => t <= bc.2) d = d.
Proof.
  rewrite <- length_filter_counts. intros Hlen.
  induction d as [|[k c] d IH]; [done|].
  destruct (decide (t <= c)).
  - rewrite filter_cons_True in * by done. simpl in Hlen. f_equal. apply IH. lia.
  - rewrite filter_cons_False in Hlen by done.
    pose proof (length_filter (fun bc : pystr * Z => t <= bc.2) d). simpl in *. lia.
Qed.

Lemma get_top_n_all (bigram_counts : dict pystr Z) :
  bigram_counts ≠ [] →
  get_top_n bigram_counts (Z.of_nat (length bigram_counts)) = Return bigram_counts.
Proof.
  intros Hne.
  destruct (get_top_n_threshold bigram_counts (Z.of_nat (length bigram_counts)))
    as (t & (_ & _ & Hall) & ->).
  { destruct bigram_counts; [done|]. simpl. lia. }
  rewrite filter_all; [done|].
  pose proof (length_filter (fun c => t <= c) (map snd bigram_counts)) as Hle.
  unfold count_at_least in *. rewrite length_map in Hle. lia.
Qed.

(** X7: an [n] of zero or below is read as a negative list index: for
    [-len < n <= 0], [get_top_n] selects as it does for [n + len], so with
    [n = 0] a non-empty dictionary comes back whole. *)
Theorem get_top_n_negative_wraps (bigram_counts : dict pystr Z) (n : Z) :
  - Z.of_nat (length bigram_counts) < n <= 0 →
  get_top_n bigram_counts n = get_top_n bigram_counts (n + Z.of_nat (length bigram_counts)) ∧
  get_top_n bigram_counts 0 = Return bigram_counts.
Proof.
  intros Hn. split.
  - unfold get_top_n. rewrite list_getitem_wrap.
    + rewrite sorted_desc_length, length_map. do 2 f_equal. lia.
    + rewrite sorted_desc_length, length_map. lia.
  - assert (bigram_counts ≠ []) as Hne by (intros ->; simpl in Hn; lia).
    rewrite <- (get_top_n_all bigram_counts Hne).
    unfold get_top_n. rewrite list_getitem_wrap.
    + rewrite sorted_desc_length, length_map. do 2 f_equal. lia.
    + rewrite sorted_desc_length, length_map. lia.
Qed.

Lemma get_top_n_negative_wraps_witness :
  get_top_n [(py "aa", 3); (py "ab", 2); (py "bb", 1)] (-1)
  = get_top_n [(py "aa", 3); (py "ab", 2); (py "bb", 1)] (-1 + 3) ∧
  get_top_n [(py "aa", 3); (py "ab", 2); (py "bb", 1)] 0
  = Return [(py "aa", 3); (py "ab", 2); (py "bb", 1)].
Proof.
  apply (get_top_n_negative_wraps [(py "aa", 3); (py "ab", 2); (py "bb", 1)] (-1)).
  simpl. lia.
Defined.

(** X8: [get_top_n] returns exactly when [-len < n <= len], [len] the number
    of entries; for every other [n], and for every [n] on an empty
    dictionary, it raises [IndexError]. *)
Theorem get_top_n_defined (bigram_counts : dict pystr Z) (n : Z) :
  ((∃ selected, get_top_n bigram_counts n = Return selected) ↔
   - Z.of_nat (length bigram_counts) < n <= Z.of_nat (length bigram_counts)) ∧
  (¬ (- Z.of_nat (length bigram_counts) < n <= Z.of_nat (length bigram_counts)) →
   get_top_n bigram_counts n = Raise IndexError).
Proof.
  assert (¬ (- Z.of_nat (length bigram_counts) < n <= Z.of_nat (length bigram_counts)) →
          get_top_n bigram_counts n = Raise IndexError) as Hout.
  { intros Hn. unfold get_top_n.
    destruct (Z.le_gt_cases n (- Z.of_nat (length bigram_counts))).
    - rewrite list_getitem_below; [done|]. rewrite sorted_desc_length, length_map. lia.
    - rewrite list_getitem_beyond; [done|]. rewrite sorted_desc_length, length_map. lia. }
  split; [|exact Hout]. split.
  - intros [selected Hs]. by eapply get_top_n_Return_range.
  - intros Hn. unfold get_top_n.
    destruct (list_getitem (sorted_desc (map snd bigram_counts)) (n - 1)) as [t| |] eqn:Ht;
      simpl; [by eexists| |].
    + exfalso. unfold list_getitem in Ht.
      rewrite sorted_desc_length, length_map in Ht.
      set (len := Z.of_nat (length bigram_counts)) in *.
      set (j := if n - 1 <? 0 then len + (n - 1) else n - 1) in *.
      assert (0 <= j < len) as Hj by (unfold j; destruct (Z.ltb_spec (n - 1) 0); lia).
      destruct (Z.leb_spec 0 j); [|lia]. destruct (Z.ltb_spec j len); [|lia]. simpl in Ht.
      destruct (lookup_lt_is_Some_2 (sorted_desc (map snd bigram_counts)) (Z.to_nat j))
        as [x Hx]; [rewrite sorted_desc_length, length_map; lia|].
      by rewrite Hx in Ht.
    + exfalso. unfold list_getitem in Ht. by repeat case_match.
Qed.

(** X9: a selected bigram keeps its count, and no bigram is selected twice:
    on a dictionary without repeated keys, every lookup in the result of
    [get_top_n] is a lookup of the input. *)
Theorem get_top_n_lookup (bigram_counts selected : dict pystr Z) (n : Z) :
  NoDup (map fst bigram_counts) → get_top_n bigram_counts n = Return selected →
  NoDup (map fst selected) ∧
  ∀ bigram count, dict_get selected bigram = Some count →
                  dict_get bigram_counts bigram = Some count.
Proof.
  intros Hnd. unfold get_top_n.
  destruct (list_getitem _ (n - 1)) as [t| |]; simpl; [|done|done]. intros [= <-].
  assert (filter (fun bc : pystr * Z => t <= bc.2) bigram_counts `sublist_of` bigram_counts)
    as Hsub by apply sublist_filter.
  split.
  - eapply sublist_NoDup; [exact Hnd | by apply (fmap_sublist fst)].
  - intros b c Hg. apply dict_get_elem_of, list_elem_of_filter in Hg as [_ Hin].
    clear Hsub. induction bigram_counts as [|[k v] d IH]; [by apply elem_of_nil in Hin|].
    simpl in *. apply NoDup_cons in Hnd as [Hk Hnd].
    destruct (decide (b = k)) as [->|Hne].
    + apply elem_of_cons in Hin as [[= ->]|Hin]; [done|].
      destruct Hk. apply list_elem_of_In, in_map_iff. exists (k, c).
      split; [done|]. by apply list_elem_of_In.
    + apply elem_of_cons in Hin as [[= -> ->]|Hin]; [done|]. by apply IH.
Qed.

Lemma get_top_n_lookup_witness :
  NoDup (map fst [(py "aa", 3); (py "ab", 2); (py "bb", 2)]) ∧
  ∀ bigram count,
    dict_get [(py "aa", 3); (py "ab", 2); (py "bb", 2)] bigram = Some count →
    dict_get [(py "aa", 3); (py "ab", 2); (py "bb", 2); (py "ba", 1)] bigram = Some count.
Proof.
  apply (get_top_n_lookup [(py "aa", 3); (py "ab", 2); (py "bb", 2); (py "ba", 1)] _ 2).
  - compute_done.
  - reflexivity.
Defined.

Lemma get_top_n_defined_witness :
  (∃ selected, get_top_n [(py "aa", 3); (py "ab", 2)] (-1) = Return selected) ∧
  get_top_n [(py "aa", 3); (py "ab", 2)] (-2) = Raise IndexError.
Proof.
  destruct (get_top_n_defined [(py "aa", 3); (py "ab", 2)] (-1)) as [[_ H1] _].
  destruct (get_top_n_defined [(py "aa", 3); (py "ab", 2)] (-2)) as [_ H2].
  split; [apply H1 | apply H2]; simpl; lia.
Defined.

(* ===================================================================== *)
(** * Further properties of the encoder *)
(* ===================================================================== *)

Lemma np_incr_wraps (ohe : list Z) (idx : Z) :
  - Z.of_nat (length ohe) <= idx < 0 →
  np_incr ohe idx = Return (alter Z.succ (Z.to_nat (Z.of_nat (length ohe) + idx)) ohe).
Proof.
  intros Hi. unfold np_incr. destruct (Z.ltb_spec idx 0); [|lia].
  destruct (Z.leb_spec 0 (Z.of_nat (length ohe) + idx)); [|lia].
  by destruct (Z.ltb_spec (Z.of_nat (length ohe) + idx) (Z.of_nat (length ohe))); [|lia].
Qed.

Lemma np_incr_outside (ohe : list Z) (idx : Z) :
  ¬ (- Z.of_nat (length ohe) <= idx < Z.of_nat (length ohe)) →
  np_incr ohe idx = Raise IndexError.
Proof.
  intros Hi. unfold np_incr. destruct (Z.ltb_spec idx 0).
  - by destruct (Z.leb_spec 0 (Z.of_nat (length ohe) + idx)); [lia|].
  - destruct (Z.ltb_spec idx (Z.of_nat (length ohe))); [lia|]. by rewrite andb_false_r.
Qed.

Lemma hits_at_cons (mapping : dict pystr Z) (idx : Z) (b : pystr) (bs : list pystr) :
  hits_at mapping idx (b :: bs)
  = ((if decide (dict_get mapping b = Some idx) then 1 else 0) + hits_at mapping idx bs)%nat.
Proof.
  unfold hits_at. destruct (decide _).
  - by rewrite filter_cons_True.
  - by rewrite filter_cons_False.
Qed.

Lemma mapping_wraps_get (mapping : dict pystr Z) (bigram : pystr) (idx : Z) :
  mapping_wraps mapping → dict_get mapping bigram = Some idx →
  - Z.of_nat (length mapping) <= idx < Z.of_nat (length mapping).
Proof.
  intros Hr Hg. apply dict_get_elem_of in Hg.
  unfold mapping_wraps in Hr. rewrite Forall_forall in Hr. exact (Hr _ Hg).
Qed.

Lemma count_into_wraps (mapping : dict pystr Z) (bs : list pystr) (ohe : list Z) :
  mapping_wraps mapping → length ohe = length mapping →
  ∃ ohe', count_into mapping ohe bs = Return ohe' ∧
          length ohe' = length ohe ∧
          ∀ (j : nat) (x : Z), ohe !! j = Some x →
            ohe' !! j
            = Some (x + Z.of_nat (hits_at mapping (Z.of_nat j) bs)
                      + Z.of_nat (hits_at mapping (Z.of_nat j - Z.of_nat (length mapping)) bs)).
Proof.
  intros Hr. revert ohe. induction bs as [|b bs IH]; intros ohe Hlen.
  - exists ohe. split; [done|]. split; [done|]. intros j x Hj.
    rewrite Hj. f_equal. change (hits_at mapping ?i []) with 0%nat. lia.
  - simpl. unfold dict_contains. destruct (dict_get mapping b) as [idx|] eqn:Hb; simpl.
    + pose proof (mapping_wraps_get _ _ _ Hr Hb) as Hidx.
      assert (∃ p : nat, (p < length ohe)%nat ∧
                np_incr ohe idx = Return (alter Z.succ p ohe) ∧
                (Z.of_nat p = idx ∨ Z.of_nat p - Z.of_nat (length mapping) = idx))
        as (p & Hp & -> & Hpi).
      { destruct (Z.lt_ge_cases idx 0).
        - exists (Z.to_nat (Z.of_nat (length ohe) + idx)). split; [lia|].
          split; [apply np_incr_wraps; lia|]. right. lia.
        - exists (Z.to_nat idx). split; [lia|].
          split; [apply np_incr_in_range; lia|]. left. lia. }
      simpl.
      destruct (IH (alter Z.succ p ohe)) as (ohe' & Hc & Hl & Hv).
      { by rewrite length_alter. }
      exists ohe'. split; [exact Hc|]. split; [by rewrite Hl, length_alter|].
      intros j x Hj. rewrite !hits_at_cons, Hb.
      pose proof (lookup_lt_Some _ _ _ Hj) as Hjl.
      destruct (decide (j = p)) as [->|Hne].
      * rewrite (Hv p (Z.succ x)) by (by rewrite list_lookup_alter_eq, Hj).
        f_equal. destruct Hpi as [<-|<-].
        -- rewrite decide_True by done. rewrite decide_False by (intros [=]; lia). lia.
        -- rewrite decide_False by (intros [=]; lia). rewrite decide_True by done. lia.
      * rewrite (Hv j x) by (by rewrite list_lookup_alter_ne).
        f_equal. rewrite !decide_False; [lia| |]; intros [= ->]; destruct Hpi; lia.
    + destruct (IH ohe Hlen) as (ohe' & Hc & Hl & Hv).
      exists ohe'. split; [exact Hc|]. split; [exact Hl|].
      intros j x Hj. rewrite !hits_at_cons, Hb, !decide_False by done. by apply Hv.
Qed.

Lemma encode_text_wraps (mapping : dict pystr Z) (text : pystr) :
  mapping_wraps mapping →
  ∃ ohe, encode_text mapping text = Return ohe ∧
         length ohe = length mapping ∧
         ∀ j : nat, (j < length mapping)%nat →
           ohe !! j
           = Some (Z.of_nat (hits_at mapping (Z.of_nat j) (bigrams text))
                   + Z.of_nat (hits_at mapping (Z.of_nat j - Z.of_nat (length mapping))
                                       (bigrams text))).
Proof.
  intros Hr. unfold encode_text.
  destruct (count_into_wraps mapping (bigrams text) (np_zeros (length mapping)) Hr)
    as (ohe & Hc & Hl & Hv).
  { apply length_replicate. }
  exists ohe. split; [exact Hc|]. split.
  - rewrite Hl. apply length_replicate.
  - intros j Hj. rewrite (Hv j 0); [f_equal; lia|]. by apply lookup_replicate_2.
Qed.

(** X10: a mapping may hold negative indices down to [-D]; numpy counts them
    from the end. Under such a mapping encoding raises nothing, and position
    [j] of the vector holds the number of bigrams of the text sent to [j]
    plus the number sent to [j - D]. *)
Theorem encode_text_negative_indices (mapping : dict pystr Z) (text : pystr) :
  mapping_wraps mapping →
  ∃ ohe, encode_text mapping text = Return ohe ∧
         length ohe = length mapping ∧
         ∀ j : nat, (j < length mapping)%nat →
           ohe !! j
           = Some (Z.of_nat (hits_at mapping (Z.of_nat j) (bigrams text))
                   + Z.of_nat (hits_at mapping (Z.of_nat j - Z.of_nat (length mapping))
                                       (bigrams text))).
Proof. apply encode_text_wraps. Qed.

Lemma encode_text_negative_indices_witness :
  ∃ ohe, encode_text [(py "aa", 0); (py "bb", -1)] (py "aabbb") = Return ohe ∧
         length ohe = 2%nat ∧
         ∀ j : nat, (j < 2)%nat →
           ohe !! j
           = Some (Z.of_nat (hits_at [(py "aa", 0); (py "bb", -1)] (Z.of_nat j)
                                     (bigrams (py "aabbb")))
                   + Z.of_nat (hits_at [(py "aa", 0); (py "bb", -1)] (Z.of_nat j - 2)
                                       (bigrams (py "aabbb")))).
Proof.
  apply (encode_text_negative_indices [(py "aa", 0); (py "bb", -1)] (py "aabbb")).
  unfold mapping_wraps. repeat constructor; simpl; lia.
Defined.

Lemma count_into_outcome (mapping : dict pystr Z) (bs : list pystr) (ohe : list Z) :
  length ohe = length mapping →
  (Exists (out_of_vector mapping) bs → count_into mapping ohe bs = Raise IndexError) ∧
  (¬ Exists (out_of_vector mapping) bs → ∃ ohe', count_into mapping ohe bs = Return ohe').
Proof.
  revert ohe. induction bs as [|b bs IH]; intros ohe Hlen.
  { split; [by intros ?%Exists_nil | by exists ohe]. }
  simpl. unfold dict_contains.
  destruct (dict_get mapping b) as [idx|] eqn:Hb; simpl.
  - destruct (decide (- Z.of_nat (length mapping) <= idx < Z.of_nat (length mapping)))
      as [Hin|Hout].
    + destruct (np_incr ohe idx) as [ohe1| |] eqn:Hi.
      2,3: (exfalso; unfold np_incr in Hi; rewrite Hlen in Hi;
            destruct (Z.ltb_spec idx 0);
            [destruct (Z.leb_spec 0 (Z.of_nat (length mapping) + idx)); [|lia];
             destruct (Z.ltb_spec (Z.of_nat (length mapping) + idx) (Z.of_nat (length mapping)));
             [|lia]
            |destruct (Z.leb_spec 0 idx); [|lia];
             destruct (Z.ltb_spec idx (Z.of_nat (length mapping))); [|lia]];
            discriminate Hi).
      simpl. destruct (IH ohe1) as [IH1 IH2].
      { apply np_incr_length in Hi. lia. }
      split.
      * intros [Hbad|Hex]%Exists_cons; [|by apply IH1].
        unfold out_of_vector in Hbad. by rewrite Hb in Hbad.
      * intros Hno. apply IH2. intros Hex. apply Hno. by right.
    + rewrite np_incr_outside by (by rewrite Hlen). simpl. split; [done|].
      intros Hno. destruct Hno. left. unfold out_of_vector. by rewrite Hb.
  - destruct (IH ohe Hlen) as [IH1 IH2]. split.
    + intros [Hbad|Hex]%Exists_cons; [|by apply IH1].
      unfold out_of_vector in Hbad. by rewrite Hb in Hbad.
    + intros Hno. apply IH2. intros Hex. apply Hno. by right.
Qed.

(** X11: encoding a text ends in one of two ways. It raises [IndexError]
    exactly when the mapping sends some bigram of the text to an index
    outside [-D, D); otherwise it returns a vector. Bigrams without an entry
    never make it fail. *)
Theorem encode_text_index_error (mapping : dict pystr Z) (text : pystr) :
  (encode_text mapping text = Raise IndexError ↔
   Exists (out_of_vector mapping) (bigrams text)) ∧
  (encode_text mapping text = Raise IndexError ∨
   ∃ ohe, encode_text mapping text = Return ohe).
Proof.
  unfold encode_text.
  destruct (count_into_outcome mapping (bigrams text) (np_zeros (length mapping)))
    as [H1 H2]; [apply length_replicate|].
  destruct (decide (Exists (out_of_vector mapping) (bigrams text))) as [Hex|Hno].
  - split; [by split | left; by apply H1].
  - destruct (H2 Hno) as [ohe Hohe]. split; [|right; by exists ohe].
    split; [|by intros ?]. rewrite Hohe. done.
Qed.

Lemma encoded_rows_cons_record (mapping : dict pystr Z) (line : list pystr)
    (lines : list (list pystr)) (r : corpus_row) (ohe : list Z) :
  unpack7 line = Some r → encode_text mapping (text r) = Return ohe →
  encoded_rows mapping (line :: lines) = row_text r ohe :: encoded_rows mapping lines.
Proof.
  intros Hu He. unfold encoded_rows. simpl. rewrite Hu. simpl.
  unfold encoded_row at 1. by rewrite He.
Qed.

Lemma encoded_rows_cons_placeholder (mapping : dict pystr Z) (lines : list (list pystr)) :
  encoded_rows mapping (placeholder :: lines) = encoded_rows mapping lines.
Proof. reflexivity. Qed.

(** The loop under a mapping in range, on rows it gets past: it returns, and
    what it has written and what it still holds is a subsequence of the rows
    of the records. *)
Lemma gen_bigram_repr_rows_sublist (mapping : dict pystr Z) (lines : list (list pystr))
    (i : Z) (w : writer) :
  mapping_wraps mapping → countable_rows lines →
  ∃ (chunks : list (list pystr)) (pending : list pystr),
    gen_bigram_repr_rows mapping i lines w
    = (Writer pending (fout w ++ concat (map (join newline) chunks)), Return ()) ∧
    (concat chunks ++ pending) `sublist_of` (write_list w ++ encoded_rows mapping lines).
Proof.
  intros Hm Hrows. revert i w.
  induction Hrows as [|line lines Hline Hrows IH]; intros i w.
  { exists [], (write_list w). simpl. rewrite !app_nil_r. by destruct w. }
  destruct Hline as [[r Hr]| ->].
  - destruct (encode_text_wraps mapping (text r) Hm) as (ohe & He & _).
    rewrite (encoded_rows_cons_record _ _ _ _ _ Hr He).
    cbn [gen_bigram_repr_rows]. rewrite Hr, He.
    destruct ((i mod 10000 =? 0) && negb (length (write_list w) =? 0)%nat).
    + destruct (IH (i + 1) (Writer [] (fout w ++ join newline (write_list w))))
        as (chunks & pending & -> & Hsub).
      exists (write_list w :: chunks), pending. simpl. rewrite <- !app_assoc.
      split; [done|]. apply sublist_app; [done|]. by apply sublist_cons.
    + destruct (IH (i + 1) (Writer (write_list w ++ [row_text r ohe]) (fout w)))
        as (chunks & pending & -> & Hsub).
      exists chunks, pending. split; [done|]. simpl in Hsub.
      by rewrite <- app_assoc in Hsub.
  - rewrite encoded_rows_cons_placeholder. cbn [gen_bigram_repr_rows].
    rewrite unpack7_placeholder, decide_True by done. apply IH.
Qed.

(** X12: under a mapping with indices in [-D, D), on a corpus whose rows
    have seven fields or are the placeholder, the loop of [gen_bigram_repr]
    ends normally, and the rows it has written followed by the rows it still
    holds are rows of the records, each at most once and in corpus order:
    it writes nothing else, and it never reorders or repeats a row. *)
Theorem gen_bigram_repr_rows_subsequence (mapping : dict pystr Z)
    (lines : list (list pystr)) :
  mapping_wraps mapping → countable_rows lines →
  ∃ (chunks : list (list pystr)) (pending : list pystr),
    gen_bigram_repr_rows mapping 0 lines (Writer [] [])
    = (Writer pending (concat (map (join newline) chunks)), Return ()) ∧
    (concat chunks ++ pending) `sublist_of` encoded_rows mapping lines.
Proof.
  intros Hm Hrows.
  destruct (gen_bigram_repr_rows_sublist mapping lines 0 (Writer [] []) Hm Hrows)
    as (chunks & pending & Hrun & Hsub).
  by exists chunks, pending.
Qed.

Lemma gen_bigram_repr_rows_subsequence_witness :
  ∃ (chunks : list (list pystr)) (pending : list pystr),
    gen_bigram_repr_rows [(py "aa", 0); (py "bb", 1)] 0 rows_with_placeholder (Writer [] [])
    = (Writer pending (concat (map (join newline) chunks)), Return ()) ∧
    (concat chunks ++ pending)
      `sublist_of` encoded_rows [(py "aa", 0); (py "bb", 1)] rows_with_placeholder.
Proof.
  apply (gen_bigram_repr_rows_subsequence [(py "aa", 0); (py "bb", 1)] rows_with_placeholder).
  - unfold mapping_wraps. repeat constructor; simpl; lia.
  - unfold rows_with_placeholder, countable_rows.
    apply Forall_cons. split; [left; by eexists|].
    apply Forall_cons. split; [by right|].
    apply Forall_cons. split; [left; by eexists | constructor].
Defined.

Lemma gen_bigram_repr_rows_pending (mapping : dict pystr Z) (lines : list (list pystr))
    (i : Z) (w : writer) :
  mapping_wraps mapping → countable_rows lines →
  (i = 0 ∧ write_list w = []) ∨ 0 < i →
  i + Z.of_nat (length lines) <= 10000 →
  gen_bigram_repr_rows mapping i lines w
  = (Writer (write_list w ++ encoded_rows mapping lines) (fout w), Return ()).
Proof.
  intros Hm Hrows. revert i w.
  induction Hrows as [|line lines Hline Hrows IH]; intros i w Hi Hn.
  { unfold encoded_rows. simpl. rewrite app_nil_r. by destruct w. }
  simpl in Hn. destruct Hline as [[r Hr]| ->].
  - destruct (encode_text_wraps mapping (text r) Hm) as (ohe & He & _).
    rewrite (encoded_rows_cons_record _ _ _ _ _ Hr He).
    cbn [gen_bigram_repr_rows]. rewrite Hr, He.
    assert ((i mod 10000 =? 0) && negb (length (write_list w) =? 0)%nat = false) as ->.
    { destruct Hi as [[-> ->]|Hi]; [done|].
      rewrite Z.mod_small by lia. by destruct (Z.eqb_spec i 0); [lia|]. }
    rewrite IH; [|right; lia|lia]. simpl. by rewrite <- app_assoc.
  - rewrite encoded_rows_cons_placeholder. cbn [gen_bigram_repr_rows].
    rewrite unpack7_placeholder, decide_True by done.
    apply IH; [|lia]. destruct Hi as [[-> Hw]|Hi]; right; lia.
Qed.

(** X13: a corpus of at most 10000 rows never reaches a flush. Under a
    mapping with indices in [-D, D), when every row has seven fields or is the
    placeholder, the loop of [gen_bigram_repr] ends normally with nothing
    written and with exactly one row per record pending, in corpus order;
    placeholder rows add nothing. *)
Theorem gen_bigram_repr_rows_buffer (mapping : dict pystr Z) (lines : list (list pystr)) :
  mapping_wraps mapping → countable_rows lines →
  Z.of_nat (length lines) <= 10000 →
  gen_bigram_repr_rows mapping 0 lines (Writer [] [])
  = (Writer (encoded_rows mapping lines) [], Return ()).
Proof.
  intros Hm Hrows Hn.
  rewrite gen_bigram_repr_rows_pending; [done..|by left|lia].
Qed.

Lemma gen_bigram_repr_rows_buffer_witness :
  gen_bigram_repr_rows [(py "aa", 0); (py "bb", 1)] 0 rows_with_placeholder (Writer [] [])
  = (Writer [py "5, 0, t, f, 1, 1"; py "6, 1, t, f, 0, 2"] [], Return ()).
Proof.
  rewrite (gen_bigram_repr_rows_buffer [(py "aa", 0); (py "bb", 1)] rows_with_placeholder).
  - reflexivity.
  - unfold mapping_wraps. repeat constructor; simpl; lia.
  - unfold rows_with_placeholder, countable_rows.
    apply Forall_cons. split; [left; by eexists|].
    apply Forall_cons. split; [by right|].
    apply Forall_cons. split; [left; by eexists | constructor].
  - simpl. lia.
Defined.




(** X15: [gen_bigram_repr] touches no file but the one at [path_out]:
    however it ends, every other path holds afterwards what it held before. *)
Theorem gen_bigram_repr_frame (csv_reader : pystr → list (list pystr))
    (path_in path_out path_mapping p : string) (fs : filesystem) :
  p ≠ path_out →
  (gen_bigram_repr csv_reader path_in path_out path_mapping fs).1 !! p = fs !! p.
Proof.
  intros Hp. unfold gen_bigram_repr.
  destruct (load_mapping path_mapping fs) as [mapping| |]; [|done|done].
  destruct (fs !! path_in); [|done]. simpl.
  by rewrite !lookup_insert_ne.
Qed.

Lemma gen_bigram_repr_frame_witness :
  (gen_bigram_repr csv_plain "in.csv" "out.csv" "map.json" fs_one_record).1 !! "map.json"
  = fs_one_record !! "map.json".
Proof. apply gen_bigram_repr_frame. done. Defined.

(** X16: when the output path is the input path, the corpus is truncated
    before it is read: with a readable mapping and an existing input file,
    [gen_bigram_repr] ends normally, encodes nothing, and leaves the file
    empty. *)
Theorem gen_bigram_repr_same_path (csv_reader : pystr → list (list pystr))
    (path path_mapping : string) (fs : filesystem) (mapping : dict pystr Z) :
  csv_reader [] = [] →
  load_mapping path_mapping fs = Return mapping → is_Some (fs !! path) →
  gen_bigram_repr csv_reader path path path_mapping fs = (<[path := []]> fs, Return ()).
Proof.
  intros Hcsv Hm [content Hc]. unfold gen_bigram_repr. rewrite Hm, Hc.
  rewrite lookup_insert_eq. simpl. rewrite Hcsv. simpl. by rewrite insert_insert_eq.
Qed.

Lemma gen_bigram_repr_same_path_witness :
  gen_bigram_repr csv_plain "in.csv" "in.csv" "map.json" fs_one_record
  = (<["in.csv" := []]> fs_one_record, Return ()).
Proof.
  apply (gen_bigram_repr_same_path csv_plain "in.csv" "map.json" fs_one_record
           [(py "aa", 0); (py "bb", 1)]).
  - reflexivity.
  - by vm_compute.
  - by eexists.
Defined.

(* ===================================================================== *)
(** * Further properties of the mapping and of the pipeline *)
(* ===================================================================== *)

Lemma zip_seq_in_range {A} (l : list A) :
  Forall (fun kv : A * Z => 0 <= kv.2 < Z.of_nat (length l))
         (zip l (Z.of_nat <$> seq 0 (length l))).
Proof.
  apply Forall_forall. intros [b v] Hin.
  assert (v ∈ map snd (zip l (Z.of_nat <$> seq 0 (length l)))) as Hv.
  { apply list_elem_of_In, in_map_iff. exists (b, v). split; [done|]. by apply list_elem_of_In. }
  rewrite zip_snd_seq in Hv by done.
  apply list_elem_of_fmap in Hv as (k & -> & Hk%elem_of_seq). simpl. lia.
Qed.

Lemma get_bigram_to_dim_mapping_in_range (set_iter : gset pystr → list pystr)
    (top_n_ch top_n_other : dict pystr Z) :
  let all_bigrams : gset pystr :=
    list_to_set (map fst top_n_ch) ∪ list_to_set (map fst top_n_other) in
  set_iter all_bigrams ≡ₚ elements all_bigrams →
  mapping_in_range (get_bigram_to_dim_mapping set_iter top_n_ch top_n_other) ∧
  length (get_bigram_to_dim_mapping set_iter top_n_ch top_n_other) = size all_bigrams ∧
  map fst (get_bigram_to_dim_mapping set_iter top_n_ch top_n_other) = set_iter all_bigrams.
Proof.
  intros all Hp.
  assert (size all = length (set_iter all)) as Hsize by (by rewrite Hp).
  rewrite get_bigram_to_dim_mapping_zip by done. fold all.
  assert (length (zip (set_iter all) (Z.of_nat <$> seq 0 (size all))) = size all) as Hlen.
  { rewrite length_zip_with, length_fmap, length_seq. lia. }
  split; [|split; [done | by apply zip_fst_seq]].
  unfold mapping_in_range. rewrite Hlen, Hsize. apply zip_seq_in_range.
Qed.

(** X17: the mapping [get_bigram_to_dim_mapping] builds always fits the
    encoder: whatever order the set is visited in, every text is encoded
    under it without error, into a vector with one position per bigram of
    the union of the two selections. *)
Theorem encode_under_generated_mapping (set_iter : gset pystr → list pystr)
    (top_n_ch top_n_other : dict pystr Z) (text : pystr) :
  let all_bigrams : gset pystr :=
    list_to_set (map fst top_n_ch) ∪ list_to_set (map fst top_n_other) in
  set_iter all_bigrams ≡ₚ elements all_bigrams →
  ∃ ohe,
    encode_text (get_bigram_to_dim_mapping set_iter top_n_ch top_n_other) text = Return ohe ∧
    length ohe = size all_bigrams.
Proof.
  intros all Hp.
  destruct (get_bigram_to_dim_mapping_in_range set_iter top_n_ch top_n_other Hp)
    as (Hr & Hlen & _).
  destruct (encode_text_returns _ text Hr) as (ohe & He & Hl & _).
  exists ohe. split; [exact He|]. by rewrite Hl.
Qed.

Lemma encode_under_generated_mapping_witness :
  ∃ ohe,
    encode_text (get_bigram_to_dim_mapping elements [(py "aa", 7)] [(py "ab", 5); (py "aa", 2)])
                (py "aabab") = Return ohe ∧
    length ohe = size (list_to_set [py "aa"] ∪ list_to_set [py "ab"; py "aa"] : gset pystr).
Proof.
  apply (encode_under_generated_mapping elements [(py "aa", 7)] [(py "ab", 5); (py "aa", 2)]).
  reflexivity.
Defined.

Lemma generated_mapping_file (set_iter : gset pystr → list pystr)
    (top_n_ch top_n_other : dict pystr Z) (path : string) (fs : filesystem) :
  set_iter (list_to_set (map fst top_n_ch) ∪ list_to_set (map fst top_n_other))
    ≡ₚ elements (list_to_set (map fst top_n_ch) ∪ list_to_set (map fst top_n_other)
                 : gset pystr) →
  Forall (fun kv : pystr * Z => Forall is_text_char kv.1) (top_n_ch ++ top_n_other) →
  load_mapping path
    (dump_bigram_to_dim_mapping
       (get_bigram_to_dim_mapping set_iter top_n_ch top_n_other) path fs)
  = Return (get_bigram_to_dim_mapping set_iter top_n_ch top_n_other).
Proof.
  intros Hp Htext.
  set (all := list_to_set (map fst top_n_ch) ∪ list_to_set (map fst top_n_other) : gset pystr) in *.
  destruct (get_bigram_to_dim_mapping_in_range set_iter top_n_ch top_n_other Hp)
    as (_ & _ & Hkeys).
  unfold load_mapping, dump_bigram_to_dim_mapping. rewrite lookup_insert_eq.
  apply JsonFacts.loads_dumps.
  - rewrite Hkeys. fold all. rewrite Hp. apply NoDup_elements.
  - apply Forall_forall. intros [b v] Hin.
    assert (b ∈ set_iter all) as Hb.
    { fold all in Hkeys. rewrite <- Hkeys. apply list_elem_of_In, in_map_iff.
      exists (b, v). split; [done|]. by apply list_elem_of_In. }
    rewrite Hp in Hb. apply elem_of_elements in Hb. unfold all in Hb.
    rewrite elem_of_union, !elem_of_list_to_set in Hb.
    rewrite Forall_forall in Htext. simpl.
    assert (b ∈ map fst (top_n_ch ++ top_n_other)) as Hb'.
    { rewrite map_app, elem_of_app. done. }
    apply list_elem_of_In, in_map_iff in Hb' as ([b' v'] & [= ->] & Hin').
    apply (Htext (b, v')). by apply list_elem_of_In.
Qed.


(** X18: the mapping built from two selections whose bigrams are made of
    text characters survives the mapping file: written with
    [dump_bigram_to_dim_mapping] and read back the way [gen_bigram_repr]
    reads it, it is the mapping that was built, whatever order the set was
    visited in. *)
Theorem generated_mapping_round_trip (set_iter : gset pystr → list pystr)
    (top_n_ch top_n_other : dict pystr Z) (path : string) (fs : filesystem) :
  let all_bigrams : gset pystr :=
    list_to_set (map fst top_n_ch) ∪ list_to_set (map fst top_n_other) in
  set_iter all_bigrams ≡ₚ elements all_bigrams →
  Forall (fun kv : pystr * Z => Forall is_text_char kv.1) (top_n_ch ++ top_n_other) →
  load_mapping path
    (dump_bigram_to_dim_mapping
       (get_bigram_to_dim_mapping set_iter top_n_ch top_n_other) path fs)
  = Return (get_bigram_to_dim_mapping set_iter top_n_ch top_n_other).
Proof. intros all Hp Htext. by apply generated_mapping_file. Qed.

Lemma generated_mapping_round_trip_witness :
  load_mapping "map.json"
    (dump_bigram_to_dim_mapping
       (get_bigram_to_dim_mapping elements [(py "aa", 7)] [(py "ab", 5); (py "aa", 2)])
       "map.json" ∅)
  = Return (get_bigram_to_dim_mapping elements [(py "aa", 7)] [(py "ab", 5); (py "aa", 2)]).
Proof.
  apply (generated_mapping_round_trip elements [(py "aa", 7)] [(py "ab", 5); (py "aa", 2)]).
  - reflexivity.
  - repeat constructor; unfold is_text_char; lia.
Defined.








Lemma get_top_n_beyond (bigram_counts : dict pystr Z) (n : Z) :
  Z.of_nat (length bigram_counts) < n → get_top_n bigram_counts n = Raise IndexError.
Proof.
  intros Hn. unfold get_top_n. rewrite list_getitem_beyond; [done|].
  rewrite sorted_desc_length, length_map. lia.
Qed.

(** X20: with [-g], a class with fewer distinct bigrams than its selection
    size stops the whole run. When counting succeeds but the dictionary of
    class zero has fewer than [--ch] entries, or that selection succeeds and
    the other dictionary has fewer than [--world] entries, [main] raises
    [IndexError] and no file is written: no mapping, no output. *)
Theorem main_too_few_bigrams (set_iter : gset pystr → list pystr)
    (csv_reader : pystr → list (list pystr)) (a : args) (fs : filesystem)
    (counts_ch counts_other : dict pystr Z) :
  gen_mapping a = true →
  count_bigrams csv_reader fs (path_in a) = Return (counts_ch, counts_other) →
  Z.of_nat (length counts_ch) < ch a ∨
  (1 <= ch a <= Z.of_nat (length counts_ch) ∧ Z.of_nat (length counts_other) < world a) →
  main set_iter csv_reader a fs = (fs, Raise IndexError).
Proof.
  intros Hg Hcount Hfew. unfold main. rewrite Hg, Hcount.
  cbn [mbind outcome_bind fst snd].
  destruct Hfew as [Hch|[Hch Hworld]].
  - rewrite (get_top_n_beyond counts_ch) by done. reflexivity.
  - destruct (get_top_n_threshold counts_ch (ch a) Hch) as (t & _ & ->).
    rewrite (get_top_n_beyond counts_other) by done. reflexivity.
Qed.

Lemma main_too_few_bigrams_witness :
  main elements csv_plain args_default_sizes fs_two_records
  = (fs_two_records, Raise IndexError).
Proof.
  apply (main_too_few_bigrams elements csv_plain args_default_sizes fs_two_records
           [(py "aa", 1); (py "ab", 1); (py "bb", 1)] [(py "bb", 2)]).
  - reflexivity.
  - reflexivity.
  - left. simpl. lia.
Defined.

(* ===================================================================== *)
(** * Further properties of the mapping file *)
(* ===================================================================== *)

Module JsonAscii.
Import Json.
Local Open Scope N_scope.

Lemma hex_digit_printable (d : N) : d < 16 → printable_ascii (hex_digit d).
Proof.
  intros Hd. unfold hex_digit, printable_ascii. destruct (N.ltb_spec d 10); lia.
Qed.

Lemma u_escape_printable (n : N) : Forall printable_ascii (u_escape n).
Proof.
  unfold u_escape.
  repeat (apply Forall_cons; split;
          [first [apply hex_digit_printable; apply N.mod_lt; lia
                 |unfold printable_ascii; lia]|]).
  constructor.
Qed.

Lemma escape_char_printable (c : N) : Forall printable_ascii (escape_char c).
Proof.
  unfold escape_char.
  repeat (case_match; [repeat constructor; unfold printable_ascii; lia|]).
  destruct ((32 <=? c) && (c <=? 126)) eqn:Hp.
  - apply andb_true_iff in Hp as [?%N.leb_le ?%N.leb_le].
    repeat constructor; unfold printable_ascii; lia.
  - case_match; [apply u_escape_printable|].
    apply Forall_app. split; apply u_escape_printable.
Qed.

Lemma encode_basestring_printable (s : pystr) :
  Forall printable_ascii (encode_basestring_ascii s).
Proof.
  unfold encode_basestring_ascii. apply Forall_app. split.
  { repeat constructor; unfold printable_ascii; lia. }
  apply Forall_app. split; [|repeat constructor; unfold printable_ascii; lia].
  induction s as [|c s IH]; simpl; [constructor|].
  apply Forall_app. split; [apply escape_char_printable | exact IH].
Qed.

Lemma uint_chars_printable (d : Decimal.uint) : Forall printable_ascii (uint_chars d).
Proof.
  induction d; simpl; constructor; try done; unfold printable_ascii; lia.
Qed.

Lemma str_of_int_printable (z : Z) : Forall printable_ascii (str_of_int z).
Proof.
  unfold str_of_int. destruct (z <? 0)%Z; [constructor|]; try apply uint_chars_printable.
  unfold printable_ascii. lia.
Qed.

Lemma join_printable (sep : pystr) (parts : list pystr) :
  Forall printable_ascii sep → Forall (Forall printable_ascii) parts →
  Forall printable_ascii (join sep parts).
Proof.
  intros Hsep Hparts. induction Hparts as [|p [|q parts] Hp Hparts IH]; simpl;
    [constructor | done |].
  apply Forall_app. split; [done|]. apply Forall_app. split; [done|]. exact IH.
Qed.

Lemma dumps_printable (d : dict pystr Z) : Forall printable_ascii (dumps d).
Proof.
  unfold dumps. apply Forall_app. split.
  { repeat constructor; unfold printable_ascii; lia. }
  apply Forall_app. split; [|repeat constructor; unfold printable_ascii; lia].
  apply join_printable; [repeat constructor; unfold printable_ascii; lia|].
  apply Forall_forall. intros item (kv & -> & _)%list_elem_of_fmap.
  unfold encode_item. apply Forall_app. split; [apply encode_basestring_printable|].
  apply Forall_app. split; [repeat constructor; unfold printable_ascii; lia|].
  apply str_of_int_printable.
Qed.

End JsonAscii.

(** X21: the mapping file is plain printable ASCII whatever the bigrams are:
    every character [dump_bigram_to_dim_mapping] writes lies between space and
    tilde, with control characters, quotes, backslashes and all characters
    above 126 written as escapes. *)
Theorem mapping_file_printable_ascii (bigram_to_dim_mapping : dict pystr Z)
    (path_out : string) (fs : filesystem) :
  ∃ content,
    dump_bigram_to_dim_mapping bigram_to_dim_mapping path_out fs !! path_out = Some content ∧
    Forall printable_ascii content.
Proof.
  exists (Json.dumps bigram_to_dim_mapping). split.
  - unfold dump_bigram_to_dim_mapping. apply lookup_insert_eq.
  - apply JsonAscii.dumps_printable.
Qed.

(* ===================================================================== *)
(** * Further properties of the label loader *)
(* ===================================================================== *)








(* ===================================================================== *)
(** * Reading files line by line *)
(* ===================================================================== *)

Lemma lines_keepends_nonempty (c : N) (s : pystr) : lines_keepends (c :: s) ≠ [].
Proof.
  revert c. induction s as [|d s IH]; intros c; simpl.
  - by destruct (c =? 10)%N.
  - destruct (c =? 10)%N; [done|].
    specialize (IH d). simpl in IH. by destruct (if (d =? 10)%N then _ else _).
Qed.

Lemma lines_keepends_length (s : pystr) :
  length (lines_keepends s)
  = (length (filter (λ c, c = 10%N) s) + (if unterminated s then 1 else 0))%nat.
Proof.
  induction s as [|c s IH]; [done|].
  assert (unterminated (c :: s)
          = match s with [] => negb (c =? 10)%N | _ => unterminated s end) as Hu.
  { unfold unterminated. by destruct s. }
  rewrite Hu. cbn [lines_keepends]. destruct (N.eqb_spec c 10) as [->|Hc].
  - rewrite filter_cons_True by done. simpl. rewrite IH. by destruct s.
  - rewrite filter_cons_False by done. destruct s as [|d s]; [done|].
    pose proof (lines_keepends_nonempty d s) as Hne.
    destruct (lines_keepends (d :: s)) as [|line lines]; [done|].
    simpl in IH |- *. done.
Qed.

Lemma foldl_count {A} (l : list A) (n : Z) :
  foldl (λ count _, count + 1) n l = n + Z.of_nat (length l).
Proof.
  revert n. induction l as [|x l IH]; intros n; simpl; [lia|]. rewrite IH. lia.
Qed.

(** X24: [get_num_lines] and [get_num_examples] return the same number on
    every file: the number of line ends of the text as read (['\r\n'] and
    ['\r'] count as one line end each), plus one when the text ends in a line
    without a line end. *)
Theorem get_num_lines_counts_line_ends (fs : filesystem) (path : string) (content : pystr) :
  fs !! path = Some content →
  get_num_lines fs path
  = Return (Z.of_nat (length (filter (λ c, c = 10%N) (universal_newlines content)))
            + (if unterminated (universal_newlines content) then 1 else 0)) ∧
  get_num_examples fs path = get_num_lines fs path.
Proof.
  intros Hfs. unfold get_num_lines, get_num_examples. rewrite Hfs. split; [|done].
  f_equal. rewrite foldl_count. unfold file_lines. rewrite lines_keepends_length.
  destruct (unterminated _); lia.
Qed.

Lemma get_num_lines_counts_line_ends_witness :
  get_num_lines fs_repr "repr.csv" = Return 2 ∧
  get_num_examples fs_repr "repr.csv" = get_num_lines fs_repr "repr.csv".
Proof.
  apply (get_num_lines_counts_line_ends fs_repr "repr.csv"
           (py "5, 0, 1, 2, 1, 1" ++ newline ++ py "6, 1, 1, 2, 0, 2")).
  reflexivity.
Defined.

(* ===================================================================== *)
(** * The representation loader *)
(* ===================================================================== *)

Lemma dict_get_Some_key {V} (d : dict pystr V) (k : pystr) (v : V) :
  dict_get d k = Some v → k ∈ map fst d.
Proof.
  induction d as [|[k0 v0] d IH]; simpl; [done|].
  destruct (decide (k = k0)) as [->|Hne]; intros H.
  - by left.
  - right. by apply IH.
Qed.

Lemma dict_set_key_elem {V} (d : dict pystr V) (k : pystr) (v : V) (x : pystr) :
  x ∈ map fst (dict_set d k v) ↔ x ∈ map fst d ∨ x = k.
Proof.
  rewrite dict_set_keys. destruct (decide (k ∈ map fst d)) as [Hin|Hnin].
  - split; [by left|]. by intros [?| ->].
  - rewrite elem_of_app, list_elem_of_singleton. done.
Qed.

Section LoaderFacts.
Variable int_float : pystr → outcome Z.

Lemma load_id_to_repr_lines_inv (lines : list pystr) (id_to_label : dict pystr pystr)
    (id_to_repr r : dict pystr (list Z)) (id_list_ordered ids : list pystr) :
  loader_inv id_to_label id_to_repr id_list_ordered →
  load_id_to_repr_lines int_float lines id_to_label id_to_repr id_list_ordered
  = Return (r, ids) →
  loader_inv id_to_label r ids.
Proof.
  revert id_to_repr id_list_ordered.
  induction lines as [|line lines IH]; intros id_to_repr id_list_ordered Hinv; simpl.
  - intros [= <- <-]. done.
  - destruct (length id_to_repr =? length id_to_label)%nat; [by intros [= <- <-]|].
    destruct (split_comma_space (strip_newlines line)) as [|text_id values]; [done|].
    destruct (int_float_all int_float values) as [repr| |]; simpl; [|done|done].
    destruct (dict_contains id_to_label text_id) eqn:Hin; [|by apply IH].
    apply IH. destruct Hinv as (Hnd & Hsame & Hlab). split; [|split].
    + by apply dict_set_NoDup.
    + intros id. rewrite dict_set_key_elem, elem_of_app, list_elem_of_singleton.
      by rewrite Hsame.
    + apply Forall_app. split; [done|]. by apply Forall_singleton.
Qed.

Lemma NoDup_subset_length (l k : list pystr) :
  NoDup l → (∀ x, x ∈ l → x ∈ k) → (length l <= length k)%nat.
Proof.
  intros Hnd Hsub. apply submseteq_length. by apply NoDup_submseteq.
Qed.

Lemma load_id_to_repr_lines_full (lines more : list pystr) (id_to_label : dict pystr pystr)
    (id_to_repr r : dict pystr (list Z)) (id_list_ordered ids : list pystr) :
  load_id_to_repr_lines int_float lines id_to_label id_to_repr id_list_ordered
  = Return (r, ids) →
  length r = length id_to_label →
  load_id_to_repr_lines int_float (lines ++ more) id_to_label id_to_repr id_list_ordered
  = Return (r, ids).
Proof.
  revert id_to_repr id_list_ordered.
  induction lines as [|line lines IH]; intros id_to_repr id_list_ordered; simpl.
  - intros [= <- <-] Hlen. destruct more as [|line more]; [done|].
    simpl. by rewrite Hlen, Nat.eqb_refl.
  - destruct (length id_to_repr =? length id_to_label)%nat; [done|].
    destruct (split_comma_space (strip_newlines line)) as [|text_id values]; [done|].
    destruct (int_float_all int_float values) as [repr| |]; simpl; [|done|done].
    destruct (dict_contains id_to_label text_id); apply IH.
Qed.

End LoaderFacts.

(** X25: what [load_id_to_repr] returns is consistent with the labels it
    was given: every id it lists has a label, the listed ids are exactly the
    keys of the representations, no key is held twice, and there are no more
    representations than listed ids or than labels. A row whose id has no
    label leaves no trace. *)
Theorem load_id_to_repr_consistent (int_float : pystr → outcome Z) (fs : filesystem)
    (path : string) (id_to_label : dict pystr pystr) (limit : option Z)
    (id_to_repr : dict pystr (list Z)) (id_list_ordered : list pystr) :
  NoDup (map fst id_to_label) →
  load_id_to_repr int_float fs path id_to_label limit = Return (id_to_repr, id_list_ordered) →
  Forall (λ id, is_Some (dict_get id_to_label id)) id_list_ordered ∧
  (∀ id, id ∈ id_list_ordered ↔ is_Some (dict_get id_to_repr id)) ∧
  NoDup (map fst id_to_repr) ∧
  (length id_to_repr <= length id_list_ordered)%nat ∧
  (length id_to_repr <= length id_to_label)%nat.
Proof.
  intros Hlab. unfold load_id_to_repr. destruct (fs !! path) as [content|]; [|done].
  intros Hrun. apply load_id_to_repr_lines_inv in Hrun as (Hnd & Hsame & Hin).
  2: { split; [apply NoDup_nil_2|]. split; [done|]. apply Forall_nil_2. }
  assert (∀ {V} (d : dict pystr V) k, k ∈ map fst d ↔ is_Some (dict_get d k)) as Hkey.
  { intros V d k. split.
    - induction d as [|[k0 v0] d IH]; simpl; [by intros ?%elem_of_nil|].
      destruct (decide (k = k0)); [by eexists|].
      intros [?|?]%elem_of_cons; [done|by apply IH].
    - intros [v Hv]. by eapply dict_get_Some_key. }
  assert (Forall (λ id, is_Some (dict_get id_to_label id)) id_list_ordered) as Hin'.
  { eapply Forall_impl; [exact Hin|]. intros id. unfold dict_contains.
    destruct (dict_get id_to_label id); [by eexists|done]. }
  split; [done|]. split; [intros id; by rewrite Hsame, Hkey|]. split; [done|].
  rewrite <- !(length_map fst id_to_repr), <- (length_map fst id_to_label). split.
  - apply NoDup_subset_length; [done|]. intros x. by rewrite Hsame.
  - apply NoDup_subset_length; [done|]. intros x Hx%Hsame.
    rewrite Forall_forall in Hin'. by apply Hkey, Hin'.
Qed.

Lemma load_id_to_repr_consistent_witness :
  Forall (λ id, is_Some (dict_get [(py "5", py "0"); (py "7", py "1")] id)) [py "5"] ∧
  (∀ id, id ∈ [py "5"] ↔ is_Some (dict_get [(py "5", [0; 1; 2; 1; 1])] id)) ∧
  NoDup (map fst [(py "5", [0; 1; 2; 1; 1])]) ∧
  (length [(py "5", [0; 1; 2; 1; 1])] <= length [py "5"])%nat ∧
  (length [(py "5", [0; 1; 2; 1; 1])] <= length [(py "5", py "0"); (py "7", py "1")])%nat.
Proof.
  apply (load_id_to_repr_consistent int_plain fs_repr "repr.csv"
           [(py "5", py "0"); (py "7", py "1")] None).
  - compute_done.
  - by vm_compute.
Defined.

(** X26: once every label has its representation the loop of
    [load_id_to_repr] reads no further: whatever lines follow, numeric or
    not, the result is the same. *)
Theorem load_id_to_repr_lines_stops_when_full (int_float : pystr → outcome Z)
    (lines more : list pystr) (id_to_label : dict pystr pystr)
    (id_to_repr : dict pystr (list Z)) (id_list_ordered : list pystr) :
  load_id_to_repr_lines int_float lines id_to_label [] [] = Return (id_to_repr, id_list_ordered) →
  length id_to_repr = length id_to_label →
  load_id_to_repr_lines int_float (lines ++ more) id_to_label [] []
  = Return (id_to_repr, id_list_ordered).
Proof. apply load_id_to_repr_lines_full. Qed.

Lemma load_id_to_repr_lines_stops_when_full_witness :
  load_id_to_repr_lines int_plain ([py "5, 0, 1, 2, 1, 1" ++ newline] ++ [py "6, x, y"])
    [(py "5", py "0")] [] []
  = Return ([(py "5", [0; 1; 2; 1; 1])], [py "5"]).
Proof.
  apply load_id_to_repr_lines_stops_when_full.
  - by vm_compute.
  - reflexivity.
Defined.

Lemma split_comma_space_keep (c : N) (s : pystr) :
  c ≠ 44%N →
  split_comma_space (c :: s)
  = match split_comma_space s with
    | piece :: pieces => (c :: piece) :: pieces
    | [] => [[c]]
    end.
Proof.
  intros Hc. apply N.eqb_neq in Hc. cbn [split_comma_space].
  destruct s as [|d s]; [done|]. by rewrite Hc.
Qed.

Lemma split_comma_space_field (f rest : pystr) :
  Forall (λ c, c ≠ 44%N) f →
  split_comma_space (f ++ 44%N :: 32%N :: rest) = f :: split_comma_space rest.
Proof.
  induction 1 as [|c f Hc Hf IH]; [done|].
  rewrite <- app_comm_cons, split_comma_space_keep by done. by rewrite IH.
Qed.

Lemma split_comma_space_last (f : pystr) :
  Forall (λ c, c ≠ 44%N) f → split_comma_space f = [f].
Proof.
  induction 1 as [|c f Hc Hf IH]; [done|].
  rewrite split_comma_space_keep by done. by rewrite IH.
Qed.

Lemma split_comma_space_join (field : pystr) (fields : list pystr) :
  Forall (Forall (λ c, c ≠ 44%N)) (field :: fields) →
  split_comma_space (join (py ", ") (field :: fields)) = field :: fields.
Proof.
  revert field. induction fields as [|g fields IH]; intros field Hf.
  - apply Forall_cons in Hf as [Hf _]. by apply split_comma_space_last.
  - apply Forall_cons in Hf as [Hf Hrest].
    change (join (py ", ") (field :: g :: fields))
      with (field ++ 44%N :: 32%N :: join (py ", ") (g :: fields)).
    rewrite split_comma_space_field by done. by rewrite IH.
Qed.

Lemma lstrip_newlines_none (s : pystr) :
  Forall (λ c, c ≠ 10%N) s → lstrip_newlines s = s.
Proof.
  destruct 1 as [|c s Hc%N.eqb_neq Hs]; [done|]. simpl. by rewrite Hc.
Qed.

Lemma strip_newlines_line (s : pystr) :
  Forall (λ c, c ≠ 10%N) s → strip_newlines (s ++ newline) = s ∧ strip_newlines s = s.
Proof.
  intros Hs. unfold strip_newlines.
  assert (lstrip_newlines (reverse s) = reverse s) as Hrev.
  { apply lstrip_newlines_none. by apply Forall_reverse. }
  split.
  - destruct s as [|c s]; [done|].
    assert (lstrip_newlines ((c :: s) ++ newline) = (c :: s) ++ newline) as ->.
    { apply Forall_cons in Hs as [Hc%N.eqb_neq _]. simpl. by rewrite Hc. }
    unfold newline. rewrite reverse_app, reverse_singleton.
    change (lstrip_newlines ([10%N] ++ reverse (c :: s)))
      with (lstrip_newlines (reverse (c :: s))).
    by rewrite Hrev, reverse_involutive.
  - rewrite (lstrip_newlines_none s) by done. by rewrite Hrev, reverse_involutive.
Qed.

Lemma join_Forall (P : N → Prop) (sep : pystr) (parts : list pystr) :
  Forall P sep → Forall (Forall P) parts → Forall P (join sep parts).
Proof.
  intros Hsep Hparts. induction Hparts as [|p parts Hp Hparts IH]; [done|].
  destruct parts as [|q parts]; [done|].
  change (join sep (p :: q :: parts)) with (p ++ sep ++ join sep (q :: parts)).
  by repeat (apply Forall_app; split).
Qed.

Lemma uint_chars_digits (d : Decimal.uint) :
  Forall (λ c, 48 <= c <= 57)%N (uint_chars d).
Proof. induction d; simpl; constructor; try done; lia. Qed.

Lemma str_of_int_plain (z : Z) : plain_field (str_of_int z).
Proof.
  assert (plain_field (uint_chars (N.to_uint (Z.abs_N z)))) as Hd.
  { eapply Forall_impl; [apply uint_chars_digits|]. simpl. lia. }
  unfold str_of_int. destruct (z <? 0)%Z; [|done]. by constructor.
Qed.

Lemma int_float_all_counts (int_float : pystr → outcome Z) (ohe : list Z) :
  Forall (λ z, int_float (str_of_int z) = Return z) ohe →
  int_float_all int_float (map str_of_int ohe) = Return ohe.
Proof.
  induction 1 as [|z ohe Hz Hohe IH]; [done|]. simpl. by rewrite Hz, IH.
Qed.

(** X27: the loader reads back a row as the encoder writes it. When the id
    and the three labels of a record hold no comma and no line end, and the
    conversion reads the three labels as numbers and each count back as
    itself, then on the row of that record (with or without a line end) the
    loop of [load_id_to_repr] stores, for a labelled id, the three label
    values followed by the counts: a vector of D + 3 entries whose first
    three are the labels of the record. *)
Theorem load_id_to_repr_lines_encoded_row (int_float : pystr → outcome Z)
    (r : corpus_row) (ohe : list Z) (line : pystr) (lines : list pystr)
    (id_to_label : dict pystr pystr) (id_to_repr : dict pystr (list Z))
    (id_list_ordered : list pystr) (binary ternary finegrained : Z) :
  plain_field (text_id r) → plain_field (label_binary r) →
  plain_field (label_ternary r) → plain_field (label_finegrained r) →
  int_float (label_binary r) = Return binary →
  int_float (label_ternary r) = Return ternary →
  int_float (label_finegrained r) = Return finegrained →
  Forall (λ z, int_float (str_of_int z) = Return z) ohe →
  line = row_text r ohe ∨ line = row_text r ohe ++ newline →
  length id_to_repr ≠ length id_to_label →
  is_Some (dict_get id_to_label (text_id r)) →
  load_id_to_repr_lines int_float (line :: lines) id_to_label id_to_repr id_list_ordered
  = load_id_to_repr_lines int_float lines id_to_label
      (dict_set id_to_repr (text_id r) (binary :: ternary :: finegrained :: ohe))
      (id_list_ordered ++ [text_id r]) ∧
  length (binary :: ternary :: finegrained :: ohe) = (length ohe + 3)%nat.
Proof.
  intros Hid Hb Ht Hf Hvb Hvt Hvf Hohe Hline Hlen [label Hlab].
  split; [|simpl; lia].
  set (fields := [label_binary r; label_ternary r; label_finegrained r]
                 ++ map str_of_int ohe).
  assert (Forall plain_field (text_id r :: fields)) as Hfields.
  { constructor; [done|]. apply Forall_app. split; [by repeat constructor|].
    apply Forall_map, Forall_forall. intros z _. apply str_of_int_plain. }
  assert (strip_newlines line = row_text r ohe) as Hstrip.
  { assert (Forall (λ c, c ≠ 10%N) (row_text r ohe)) as Hnl.
    { unfold row_text. apply join_Forall; [by repeat constructor|].
      eapply Forall_impl; [exact Hfields|]. intros f Hp.
      eapply Forall_impl; [exact Hp|]. simpl. tauto. }
    destruct (strip_newlines_line _ Hnl) as [H1 H2]. by destruct Hline as [-> | ->]. }
  assert (split_comma_space (row_text r ohe) = text_id r :: fields) as Hsplit.
  { unfold row_text. apply (split_comma_space_join (text_id r) fields).
    eapply Forall_impl; [exact Hfields|]. intros f Hp.
    eapply Forall_impl; [exact Hp|]. simpl. tauto. }
  cbn [load_id_to_repr_lines].
  apply Nat.eqb_neq in Hlen. rewrite Hlen, Hstrip, Hsplit.
  unfold fields. cbn [app int_float_all]. rewrite Hvb, Hvt, Hvf.
  rewrite (int_float_all_counts int_float ohe Hohe).
  unfold dict_contains. rewrite Hlab. done.
Qed.

Lemma load_id_to_repr_lines_encoded_row_witness :
  load_id_to_repr_lines int_plain [py "5, 0, 1, 2, 1, 1" ++ newline] [(py "5", py "0")] [] []
  = load_id_to_repr_lines int_plain [] [(py "5", py "0")]
      (dict_set [] (py "5") [0; 1; 2; 1; 1]) ([] ++ [py "5"]) ∧
  length [0; 1; 2; 1; 1] = (length [1; 1] + 3)%nat.
Proof.
  apply (load_id_to_repr_lines_encoded_row int_plain record_numeric [1; 1]).
  1-4: unfold plain_field; simpl; repeat constructor; done.
  1-3: reflexivity.
  - repeat constructor.
  - right. reflexivity.
  - simpl. lia.
  - by eexists.
Defined.
